(** * LayerFieldFeatureWidget: a shallow embedding of qgis-custom-gui.py

    The dialog class of [src/qgis-custom-gui.py] is embedded function by
    function.  Host objects (project layers, their fields and features, the
    Qt widgets) are modelled by the observations the Python code makes of
    them; Python exceptions are carried by an error monad, and the widget
    attributes mutated by the signal handlers by a state-and-exception
    monad over the record of those attributes.  What the platform decides
    (the text of a float, whether a selector announces a change of index
    made by the program) is a parameter, and every property is proved for
    all platforms. *)

From Stdlib Require Import ZArith String Ascii List Bool Lia Sorted Permutation.
From Stdlib Require Import DecimalString.
From stdpp Require Import base decidable option list gmap sets strings.

Local Open Scope Z_scope.
Set Warnings "-clear-no-such-hyp".

(** ** Python: exceptions, strings *)

(** The exception classes the code can meet. *)
Inductive exn := KeyError | AttributeError | TypeError.

(** The outcome of evaluating a Python expression: a value or a raised
    exception. *)
Inductive result (A : Type) : Type :=
| Ok (a : A)
| Raise (e : exn).
Arguments Ok {A} a.
Arguments Raise {A} e.

#[global] Instance result_ret : MRet result := @Ok.
#[global] Instance result_bind : MBind result :=
  λ A B f r, match r with Ok a => f a | Raise e => Raise e end.

(** [for x in xs: body], threading the loop's variables [S]; an exception
    raised by the body leaves the loop. *)
Fixpoint for_each {A S : Type} (xs : list A) (body : A → S → result S) (s : S)
  : result S :=
  match xs with
  | [] => Ok s
  | x :: xs' => s' ← body x s; for_each xs' body s'
  end.

(** [str.lower()] on one character, names being modelled as ASCII strings. *)
Definition lower_ascii (c : ascii) : ascii :=
  let n := nat_of_ascii c in
  if ((65 <=? n) && (n <=? 90))%nat then ascii_of_nat (n + 32) else c.

(** [s.lower()]. *)
Fixpoint lower (s : string) : string :=
  match s with
  | EmptyString => EmptyString
  | String c s' => String (lower_ascii c) (lower s')
  end.

(** [s] begins with the characters of [p]. *)
Fixpoint startswith (s p : string) {struct p} : bool :=
  match p with
  | EmptyString => true
  | String a p' =>
      match s with
      | EmptyString => false
      | String b s' => Ascii.eqb a b && startswith s' p'
      end
  end.

(** [needle in hay] for two [str]: [needle] occurs in [hay] as a contiguous
    run of characters. *)
Fixpoint str_in (needle hay : string) : bool :=
  match hay with
  | EmptyString => startswith hay needle
  | String _ hay' => startswith hay needle || str_in needle hay'
  end.

(** ** Host data: variants, fields, features *)

(** A Python [float]: not-a-number, an infinity, or the signed number
    [m * 2^e] (a zero has its sign too). *)
Inductive pyfloat :=
| NaN
| Inf (negative : bool)
| Finite (negative : bool) (m : N) (e : Z).

#[global] Instance pyfloat_eq_dec : EqDecision pyfloat.
Proof. solve_decision. Defined.

(** Attribute values as the Python side sees them: the NULL variant, [int],
    [float], [str] and [QDate] (year, month, day). *)
Inductive PyValue :=
| PyNull
| PyInt (z : Z)
| PyFloat (x : pyfloat)
| PyStr (s : string)
| PyDate (year month day : Z).

#[global] Instance PyValue_eq_dec : EqDecision PyValue.
Proof. solve_decision. Defined.

(** What the platform decides and the code of the class does not: the
    text [str] gives for a float, and whether a selector whose index is
    set by the program announces the change to the connected slot as it
    does for a pick of the user.  The development holds for every
    platform. *)
Class Host := {
  float_str : pyfloat → string;
  setCurrentIndex_emits : bool;
}.

(** [QVariant.Type] tags used by the code. *)
Definition QVariant_Int : Z := 2.
Definition QVariant_LongLong : Z := 4.
Definition QVariant_Double : Z := 6.
Definition QVariant_String : Z := 10.
Definition QVariant_Date : Z := 14.
Definition QVariant_Time : Z := 15.
Definition QVariant_DateTime : Z := 16.

(** [QgsField(name, type, typeName, len, prec)]. *)
Record QgsField := mkQgsField {
  field_name : string;
  field_type : Z;
  field_typeName : string;
  field_length : Z;
  field_precision : Z;
}.

#[global] Instance QgsField_eq_dec : EqDecision QgsField.
Proof. solve_decision. Defined.

(** [QgsFields]: the container keeps its fields in order of insertion. *)
Definition QgsFields := list QgsField.

(** [fields.indexFromName(name)]: position of the field of that exact
    name, -1 when there is none. *)
Fixpoint indexFromName (fs : QgsFields) (n : string) : Z :=
  match fs with
  | [] => -1
  | f :: fs' =>
      if String.eqb (field_name f) n then 0
      else let i := indexFromName fs' n in if i <? 0 then -1 else i + 1
  end.

(** [fields.append(field)]: a field whose name the container already holds
    is rejected (the call returns False and changes nothing). *)
Definition QgsFields_append (fs : QgsFields) (f : QgsField) : QgsFields :=
  if 0 <=? indexFromName fs (field_name f) then fs else fs ++ [f].

(** [fields.field(i)]: KeyError outside the container. *)
Definition QgsFields_field (fs : QgsFields) (i : Z) : result QgsField :=
  if i <? 0 then Raise KeyError
  else match fs !! Z.to_nat i with
       | Some f => Ok f
       | None => Raise KeyError
       end.

(** [field.isDateOrTime()]. *)
Definition isDateOrTime (f : QgsField) : bool :=
  (field_type f =? QVariant_Date) || (field_type f =? QVariant_Time)
  || (field_type f =? QVariant_DateTime).

(** The scratch [QgsFeature] the field model generator writes to: its
    fields and its attribute vector. *)
Record QgsFeature := mkQgsFeature {
  feature_fields : QgsFields;
  feature_attributes : list PyValue;
}.

(** [QgsFeature()]. *)
Definition QgsFeature_new : QgsFeature := mkQgsFeature [] [].

(** [feature.setFields(fields)]: from Python the attribute vector is
    initialised anew, one NULL per field. *)
Definition setFields (ft : QgsFeature) (fs : QgsFields) : QgsFeature :=
  mkQgsFeature fs (replicate (List.length fs) PyNull).

(** [feature.setAttribute(i, value)]: KeyError outside the attribute
    vector. *)
Definition setAttribute (ft : QgsFeature) (i : Z) (v : PyValue)
  : result QgsFeature :=
  if (0 <=? i) && (i <? Z.of_nat (List.length (feature_attributes ft)))
  then Ok (mkQgsFeature (feature_fields ft)
             (<[Z.to_nat i := v]> (feature_attributes ft)))
  else Raise KeyError.

(** ** Host layers *)

(** The two layer classes the code tells apart with [type(layer)]. *)
Inductive LayerClass := QgsVectorLayer | QgsRasterLayer.

#[global] Instance LayerClass_eq_dec : EqDecision LayerClass.
Proof. solve_decision. Defined.

(** What the code observes of a project layer.  Layers are host objects,
    compared and hashed by identity; [Feature] is the host's feature
    object.  [layer_fields] is [layer.fields().toList()], a container's
    content and so of distinct names; [uniqueValues] is the iteration of
    the set the host returns.  [layer_fields], [wkbType], [getFeatures] and
    [uniqueValues] are read on vector layers only. *)
Class MapLayer (Layer Feature : Type) `{Countable Layer} := {
  type_of : Layer → LayerClass;
  layer_name : Layer → string;
  wkbType : Layer → Z;
  layer_fields : Layer → QgsFields;
  getFeatures : Layer → list Feature;
  attribute : Feature → string → PyValue;
  uniqueValues : Layer → Z → list PyValue;
  layer_fields_NoDup : ∀ layer, NoDup (field_name <$> layer_fields layer);
}.

(** ** Constructor arguments *)

(** [layer_matches]: the default [set()] or a mapping, of which only the
    keys (in insertion order) are read. *)
Inductive layer_matches_arg :=
| LayerMatchesDefault
| LayerMatchesDict (keys : list string).

(** [layer_type]: the default [set()] or a [str]. *)
Inductive layer_type_arg :=
| LayerTypeDefault
| LayerTypeStr (s : string).

(** [geometry_type]: the default [set()] or an [int]. *)
Inductive geometry_type_arg :=
| GeometryTypeDefault
| GeometryTypeInt (n : Z).

(** The class attributes set from the constructor's arguments;
    [field_matches] is [None] or a mapping read through its keys. *)
Record Config := mkConfig {
  layer_matches : layer_matches_arg;
  field_matches : option (list string);
  title : option string;
  layer_type : layer_type_arg;
  geometry_type : geometry_type_arg;
}.

(** [len(self.layer_matches)]. *)
Definition len_layer_matches (m : layer_matches_arg) : nat :=
  match m with
  | LayerMatchesDefault => 0
  | LayerMatchesDict keys => List.length keys
  end.

(** [self.layer_matches.keys()], reached only when the length is not 0. *)
Definition layer_matches_keys (m : layer_matches_arg) : list string :=
  match m with
  | LayerMatchesDefault => []
  | LayerMatchesDict keys => keys
  end.

(** [len(self.layer_type)]. *)
Definition len_layer_type (t : layer_type_arg) : nat :=
  match t with
  | LayerTypeDefault => 0
  | LayerTypeStr s => String.length s
  end.

(** [self.geometry_type != 0]: the default [set()] differs from 0. *)
Definition geometry_type_ne_0 (g : geometry_type_arg) : bool :=
  match g with
  | GeometryTypeDefault => true
  | GeometryTypeInt n => negb (n =? 0)
  end.

(** [self.geometry_type == set()]. *)
Definition geometry_type_eq_set (g : geometry_type_arg) : bool :=
  match g with
  | GeometryTypeDefault => true
  | GeometryTypeInt _ => false
  end.

(** [layer.wkbType() == self.geometry_type]: an [int] never equals
    [set()]. *)
Definition wkbType_eq (w : Z) (g : geometry_type_arg) : bool :=
  match g with
  | GeometryTypeDefault => false
  | GeometryTypeInt n => w =? n
  end.

(** [filter_layer]: the class of the empty layer picked by
    [self.layer_type.lower()] from the two-entry table; any other string
    is a KeyError, and the default [set()] has no [lower]. *)
Definition filter_layer (self : Config) : result LayerClass :=
  match layer_type self with
  | LayerTypeDefault => Raise AttributeError
  | LayerTypeStr s =>
      let type := lower s in
      if String.eqb type "vector" then Ok QgsVectorLayer
      else if String.eqb type "raster" then Ok QgsRasterLayer
      else Raise KeyError
  end.

(** ** Model generators *)

Section Generators.
Context {Layer Feature : Type} `{Countable Layer}
  {Layer_MapLayer : MapLayer Layer Feature}.

(** [QgsProject.instance().mapLayers().values()], the host's registry. *)
Variable get_project_layers : list Layer.

(** [{layer for layer in layers if cond(layer)}] where evaluating the
    condition may raise. *)
Fixpoint set_comprehension (cond : Layer → result bool) (layers : list Layer)
  : result (gset Layer) :=
  match layers with
  | [] => Ok ∅
  | layer :: rest =>
      b ← cond layer;
      s ← set_comprehension cond rest;
      Ok (if b : bool then {[layer]} ∪ s else s)
  end.

(** The two nested loops of lines 281-284 adding to [name_layers]. *)
Definition add_name_layers (keys : list string) (layers : list Layer)
  : gset Layer :=
  fold_left
    (λ name_layers layer,
       fold_left
         (λ name_layers key,
            if str_in (lower key) (lower (layer_name layer))
            then {[layer]} ∪ name_layers else name_layers)
         keys name_layers)
    layers ∅.

(** [generate_layer_model]: the layers to leave out of the layer
    selector. *)
Definition generate_layer_model (self : Config) : result (gset Layer) :=
  let layers : gset Layer := list_to_set get_project_layers in
  type_layers ←
    (if negb (len_layer_type (layer_type self) =? 0)%nat
     then set_comprehension
            (λ layer, t ← filter_layer self;
                      Ok (bool_decide (type_of layer = t)))
            (elements layers)
     else Ok ∅);
  let geom_type_layers : gset Layer :=
    if geometry_type_ne_0 (geometry_type self)
    then list_to_set
           (List.filter
              (λ layer, bool_decide (type_of layer ≠ QgsRasterLayer)
                        && wkbType_eq (wkbType layer) (geometry_type self))
              (elements layers))
    else ∅ in
  let name_layers : gset Layer :=
    if negb (len_layer_matches (layer_matches self) =? 0)%nat
    then add_name_layers (layer_matches_keys (layer_matches self))
           (elements layers)
    else ∅ in
  let '(type_layers, geom_type_layers, name_layers) :=
    if (len_layer_type (layer_type self)
        =? len_layer_matches (layer_matches self))%nat
       && geometry_type_eq_set (geometry_type self)
    then (layers, layers, layers)
    else (type_layers, geom_type_layers, name_layers) in
  let allowed_layers := layers ∩ (type_layers ∪ geom_type_layers ∪ name_layers) in
  Ok (layers ∖ allowed_layers).

(** One arm of the [if]/[elif] chain of lines 228-243 (and 247-262): the
    field re-tagged to [ty] is appended, the scratch feature takes the
    fields and the feature's value of that field. *)
Definition append_retagged (ty : Z) (field : QgsField) (feature : Feature)
    (st : QgsFields * QgsFeature) : result (QgsFields * QgsFeature) :=
  let temp_fields :=
    QgsFields_append st.1
      (mkQgsField (field_name field) ty (field_typeName field)
         (field_length field) (field_precision field)) in
  let temp_features := setFields st.2 temp_fields in
  temp_features ←
    setAttribute temp_features
      (indexFromName temp_fields (field_name field))
      (attribute feature (field_name field));
  Ok (temp_fields, temp_features).

(** The whole chain on the field's type tag; a tag it does not name falls
    through. *)
Definition retag_field (field : QgsField) (feature : Feature)
    (st : QgsFields * QgsFeature) : result (QgsFields * QgsFeature) :=
  if (field_type field =? 2) || (field_type field =? 4)
  then append_retagged QVariant_Int field feature st
  else if field_type field =? 10
  then append_retagged QVariant_String field feature st
  else if field_type field =? 14
  then append_retagged QVariant_Date field feature st
  else if field_type field =? 6
  then append_retagged QVariant_Double field feature st
  else Ok st.

(** [generate_field_model(layer)]. *)
Definition generate_field_model (self : Config) (layer : Layer)
  : result QgsFields :=
  let temp_fields : QgsFields := [] in
  let temp_features := QgsFeature_new in
  if bool_decide (type_of layer ≠ QgsRasterLayer) then
    let features_list := getFeatures layer in
    let fields_list := layer_fields layer in
    st ←
      match field_matches self with
      | Some keys =>
          for_each keys
            (λ key, for_each fields_list
               (λ field st,
                  if String.eqb (lower key) (lower (field_name field))
                  then for_each features_list (retag_field field) st
                  else Ok st))
            (temp_fields, temp_features)
      | None =>
          for_each fields_list
            (λ field, for_each features_list (retag_field field))
            (temp_fields, temp_features)
      end;
    Ok st.1
  else Ok [].

End Generators.

(** ** Python values: ordering, rendering, sorting *)

(** [a < b] on two dates. *)
Definition date_ltb (y m d y' m' d' : Z) : bool :=
  (y <? y') || ((y =? y') && ((m <? m') || ((m =? m') && (d <? d')))).

(** The mantissa with its sign. *)
Definition signed (negative : bool) (m : N) : Z :=
  if negative then - Z.of_N m else Z.of_N m.

(** [m * 2^e < m' * 2^e'], both sides brought to the smaller exponent. *)
Definition dyadic_ltb (m e m' e' : Z) : bool :=
  let k := Z.min e e' in m * 2 ^ (e - k) <? m' * 2 ^ (e' - k).

(** [x < y] on two floats: false as soon as one is not-a-number. *)
Definition float_lt (x y : pyfloat) : bool :=
  match x, y with
  | NaN, _ | _, NaN => false
  | Inf s, Inf s' => s && negb s'
  | Inf s, Finite _ _ _ => s
  | Finite _ _ _, Inf s' => negb s'
  | Finite s m e, Finite s' m' e' => dyadic_ltb (signed s m) e (signed s' m') e'
  end.

(** An [int] as the number it is compared as with a float. *)
Definition float_of_int (z : Z) : pyfloat := Finite (z <? 0) (Z.abs_N z) 0.

(** [a < b] between attribute values: defined between numbers and inside
    one other type, a TypeError across types and on the NULL variant. *)
Definition py_lt (a b : PyValue) : result bool :=
  match a, b with
  | PyInt x, PyInt y => Ok (x <? y)
  | PyInt x, PyFloat y => Ok (float_lt (float_of_int x) y)
  | PyFloat x, PyInt y => Ok (float_lt x (float_of_int y))
  | PyFloat x, PyFloat y => Ok (float_lt x y)
  | PyStr s, PyStr t => Ok (String.ltb s t)
  | PyDate y m d, PyDate y' m' d' => Ok (date_ltb y m d y' m' d')
  | _, _ => Raise TypeError
  end.

(** [a < b] on two [str]. *)
Definition str_lt (s t : string) : result bool := Ok (String.ltb s t).

(** The decimal digit of the units of [n]. *)
Definition digit (n : Z) : ascii := ascii_of_nat (48 + Z.to_nat (n mod 10)).

(** [w] decimal digits of [n], zero padded, in front of [acc]. *)
Fixpoint zfill (w : nat) (n : Z) (acc : string) : string :=
  match w with
  | O => acc
  | S w' => zfill w' (n / 10) (String (digit n) acc)
  end.

(** The ISO-8601 text of a date, YYYY-MM-DD. *)
Definition iso_date (y m d : Z) : string :=
  zfill 4 y (String "-" (zfill 2 m (String "-" (zfill 2 d EmptyString)))).

(** [value.toString(Qt.ISODate)]: the ISO text of a [QDate] whose year has
    four digits and the empty text of one outside; no other value has this
    method. *)
Definition toString_ISODate (v : PyValue) : result string :=
  match v with
  | PyDate y m d =>
      if (0 <=? y) && (y <=? 9999) then Ok (iso_date y m d)
      else Ok EmptyString
  | PyNull => Raise TypeError
  | _ => Raise AttributeError
  end.

(** [str(value)], the default string conversion. *)
Definition py_str {host : Host} (v : PyValue) : string :=
  match v with
  | PyNull => "NULL"
  | PyInt z => DecimalString.NilZero.string_of_int (Z.to_int z)
  | PyFloat x => float_str x
  | PyStr s => s
  | PyDate y m d =>
      "PyQt5.QtCore.QDate("
      +:+ DecimalString.NilZero.string_of_int (Z.to_int y) +:+ ", "
      +:+ DecimalString.NilZero.string_of_int (Z.to_int m) +:+ ", "
      +:+ DecimalString.NilZero.string_of_int (Z.to_int d) +:+ ")"
  end.

(** [list.sort()] with the elements' [<], as a stable insertion sort: on a
    list whose elements compare it yields the ascending list, and a
    comparison that raises ends the sort. *)
Fixpoint insort {A : Type} (lt : A → A → result bool) (x : A) (l : list A)
  : result (list A) :=
  match l with
  | [] => Ok [x]
  | y :: l' =>
      b ← lt y x;
      if b : bool then r ← insort lt x l'; Ok (y :: r) else Ok (x :: l)
  end.

Fixpoint list_sort {A : Type} (lt : A → A → result bool) (l : list A)
  : result (list A) :=
  match l with
  | [] => Ok []
  | x :: l' => s ← list_sort lt l'; insort lt x s
  end.

(** [[f(x) for x in xs]] where [f] may raise. *)
Fixpoint list_comprehension {A B : Type} (f : A → result B) (xs : list A)
  : result (list B) :=
  match xs with
  | [] => Ok []
  | x :: xs' => y ← f x; ys ← list_comprehension f xs'; Ok (y :: ys)
  end.

(** ** The dialog: attributes, widgets, signal handlers *)

(** How a modal session ended. *)
Inductive DialogCode := Rejected | Accepted.

(** Keys [keyPressEvent] tells apart. *)
Inductive Key := Key_Escape | Key_Return | Key_Other.

#[global] Instance Key_eq_dec : EqDecision Key.
Proof. solve_decision. Defined.

Section Dialog.
Context {host : Host} {Layer Feature : Type} `{Countable Layer}
  {Layer_MapLayer : MapLayer Layer Feature}.

(** The host's layer registry, read at construction and by the layer
    selector. *)
Variable get_project_layers : list Layer.

(** The instance: the class attributes and what the handlers read and
    write of the widgets.  [layer_wdgt_index] is the layer selector's
    current index (0 is the placeholder entry), [field_wdgt_currentField]
    the field selector's current name (empty on its blank entry), and each
    entry of [feature_wdgt] an item of the checkable list with its check
    mark. *)
Record Dialog := mkDialog {
  attrs : Config;
  inverted_layer_model : list Layer;
  layer_wdgt_index : nat;
  field_wdgt_fields : QgsFields;
  field_wdgt_currentField : string;
  feature_wdgt : list (string * bool);
  selection_button_enabled : bool;
  ok_button_enabled : bool;
  dialog_result : option DialogCode;
}.

Definition set_layer_wdgt_index (i : nat) (d : Dialog) : Dialog :=
  mkDialog (attrs d) (inverted_layer_model d) i (field_wdgt_fields d)
    (field_wdgt_currentField d) (feature_wdgt d) (selection_button_enabled d)
    (ok_button_enabled d) (dialog_result d).

Definition set_field_wdgt (fs : QgsFields) (cur : string) (d : Dialog)
  : Dialog :=
  mkDialog (attrs d) (inverted_layer_model d) (layer_wdgt_index d) fs cur
    (feature_wdgt d) (selection_button_enabled d) (ok_button_enabled d)
    (dialog_result d).

Definition set_feature_wdgt (items : list (string * bool)) (d : Dialog)
  : Dialog :=
  mkDialog (attrs d) (inverted_layer_model d) (layer_wdgt_index d)
    (field_wdgt_fields d) (field_wdgt_currentField d) items
    (selection_button_enabled d) (ok_button_enabled d) (dialog_result d).

Definition set_selection_button_enabled (b : bool) (d : Dialog) : Dialog :=
  mkDialog (attrs d) (inverted_layer_model d) (layer_wdgt_index d)
    (field_wdgt_fields d) (field_wdgt_currentField d) (feature_wdgt d) b
    (ok_button_enabled d) (dialog_result d).

Definition set_ok_button_enabled (b : bool) (d : Dialog) : Dialog :=
  mkDialog (attrs d) (inverted_layer_model d) (layer_wdgt_index d)
    (field_wdgt_fields d) (field_wdgt_currentField d) (feature_wdgt d)
    (selection_button_enabled d) b (dialog_result d).

Definition set_dialog_result (r : option DialogCode) (d : Dialog) : Dialog :=
  mkDialog (attrs d) (inverted_layer_model d) (layer_wdgt_index d)
    (field_wdgt_fields d) (field_wdgt_currentField d) (feature_wdgt d)
    (selection_button_enabled d) (ok_button_enabled d) r.

(** Methods of the instance: a result or an exception, and the instance as
    the method leaves it. *)
Definition M (A : Type) : Type := Dialog → result A * Dialog.

#[global] Instance M_ret : MRet M := λ A a d, (Ok a, d).
#[global] Instance M_bind : MBind M :=
  λ A B f m d,
    match m d with
    | (Ok a, d') => f a d'
    | (Raise e, d') => (Raise e, d')
    end.

(** A read-only method. *)
Definition reads {A : Type} (f : Dialog → result A) : M A := λ d, (f d, d).

(** A widget call that only writes. *)
Definition modify (f : Dialog → Dialog) : M unit := λ d, (Ok tt, f d).

(** [try: body except: handler], the bare [except] catching everything. *)
Definition try_except {A : Type} (body handler : M A) : M A :=
  λ d,
    match body d with
    | (Ok a, d') => (Ok a, d')
    | (Raise _, d') => handler d'
    end.

(** A slot run by the emission of a signal: an exception leaving the slot
    is reported by the host and does not reach the code that caused the
    emission. *)
Definition emit (slot : M unit) : M unit := try_except slot (mret tt).

(** The entries of the layer selector after the placeholder: the project
    layers outside the excepted list. *)
Definition layer_wdgt_layers (d : Dialog) : list Layer :=
  List.filter (λ layer, bool_decide (layer ∉ inverted_layer_model d))
    get_project_layers.

(** [self.layer_wdgt.currentLayer()]: None on the placeholder. *)
Definition currentLayer (d : Dialog) : option Layer :=
  match layer_wdgt_index d with
  | O => None
  | S i => layer_wdgt_layers d !! i
  end.

(** [accepted_layer]. *)
Definition accepted_layer (d : Dialog) : option Layer := currentLayer d.

(** [accepted_field]: the lookup's KeyError becomes None. *)
Definition accepted_field (d : Dialog) : option QgsField :=
  let fields := field_wdgt_fields d in
  match QgsFields_field fields
          (indexFromName fields (field_wdgt_currentField d)) with
  | Ok f => Some f
  | Raise _ => None
  end.

(** [accepted_features]: the checked items, None when there is none. *)
Definition accepted_features (d : Dialog) : option (list string) :=
  let features := (List.filter snd (feature_wdgt d)).*1 in
  if (0 <? Z.of_nat (List.length features)) then Some features else None.

(** [generate_feature_model]; calling a method on None, or [fields] on a
    raster layer, is an AttributeError. *)
Definition generate_feature_model (d : Dialog) : result (list string) :=
  match accepted_layer d with
  | None => Raise AttributeError
  | Some layer =>
      if bool_decide (type_of layer = QgsRasterLayer) then Raise AttributeError
      else
        let fields := layer_fields layer in
        match accepted_field d with
        | None => Raise AttributeError
        | Some field =>
            let field_index := indexFromName fields (field_name field) in
            if isDateOrTime field then
              values ← list_comprehension toString_ISODate
                          (uniqueValues layer field_index);
              (list_sort str_lt values : result (list string))
            else
              values ← list_sort py_lt (uniqueValues layer field_index);
              (Ok (List.map py_str values) : result (list string))
        end
  end.

(** Widget calls. *)
Definition feature_wdgt_clear : M unit := modify (set_feature_wdgt []).
Definition feature_wdgt_addItems (texts : list string) : M unit :=
  modify (λ d, set_feature_wdgt (feature_wdgt d ++ ((λ t, (t, false)) <$> texts)) d).
Definition feature_wdgt_count : M nat :=
  reads (λ d, Ok (List.length (feature_wdgt d))).
Definition selection_button_setDisabled (b : bool) : M unit :=
  modify (set_selection_button_enabled (negb b)).
Definition ok_button_setDisabled (b : bool) : M unit :=
  modify (set_ok_button_enabled (negb b)).

(** [self.field_wdgt.setFields(fields)]: the selector is refilled and
    stands on its blank entry again. *)
Definition field_wdgt_setFields (fs : QgsFields) : M unit :=
  modify (set_field_wdgt fs EmptyString).

(** [on_deselect_all] and [on_select_all]. *)
Definition on_deselect_all : M unit :=
  modify (λ d, set_feature_wdgt ((λ it, (it.1, false)) <$> feature_wdgt d) d).
Definition on_select_all : M unit :=
  modify (λ d, set_feature_wdgt ((λ it, (it.1, true)) <$> feature_wdgt d) d).

(** [on_selected_field]. *)
Definition on_selected_field : M unit :=
  feature_wdgt_clear;;
  try_except
    (attribute_values ← reads generate_feature_model;
     feature_wdgt_addItems attribute_values;;
     selection_button_setDisabled false)
    (selection_button_setDisabled true;;
     feature_wdgt_clear).

(** [on_selected_layer]. *)
Definition on_selected_layer : M unit :=
  index ← reads (λ d, Ok (layer_wdgt_index d));
  if negb (index =? 0)%nat then
    ok_button_setDisabled false;;
    fields ← reads (λ d, match currentLayer d with
                         | Some layer => generate_field_model (attrs d) layer
                         | None => Raise AttributeError
                         end);
    field_wdgt_setFields fields;;
    feature_wdgt_clear;;
    count ← feature_wdgt_count;
    if (count =? 0)%nat then selection_button_setDisabled true else mret tt
  else
    ok_button_setDisabled true;;
    selection_button_setDisabled true;;
    field_wdgt_setFields [];;
    feature_wdgt_clear.

(** [self.layer_wdgt.setCurrentIndex(i)]: the selector moves to the
    entry; on a change of index the connected handler runs if the
    platform announces changes made by the program. *)
Definition layer_wdgt_setCurrentIndex (i : nat) : M unit :=
  index ← reads (λ d, Ok (layer_wdgt_index d));
  if (index =? i)%nat then mret tt
  else modify (set_layer_wdgt_index i);;
       if setCurrentIndex_emits then emit on_selected_layer else mret tt.

(** [self.field_wdgt.setCurrentIndex(0)]: back to the blank entry, under
    the same rule for the connected handler. *)
Definition field_wdgt_setCurrentIndex_0 : M unit :=
  name ← reads (λ d, Ok (field_wdgt_currentField d));
  if String.eqb name EmptyString then mret tt
  else modify (λ d, set_field_wdgt (field_wdgt_fields d) EmptyString d);;
       if setCurrentIndex_emits then emit on_selected_field else mret tt.

(** [on_reset_layer]. *)
Definition on_reset_layer : M unit :=
  layer_wdgt_setCurrentIndex 0;;
  field_wdgt_setCurrentIndex_0.

(** [QDialog.accept] and [QDialog.reject] end the modal session. *)
Definition accept : M unit := modify (set_dialog_result (Some Accepted)).
Definition reject : M unit := modify (set_dialog_result (Some Rejected)).

(** [keyPressEvent] on a key press. *)
Definition keyPressEvent (key : Key) : M unit :=
  if bool_decide (key = Key_Escape) then reject;; on_reset_layer
  else if bool_decide (key = Key_Return) then accept
  else mret tt.

(** [__init__] up to [self.exec()]: the inverted model is computed once,
    the selectors stand on their first entries, both button boxes start
    disabled. *)
Definition init (self : Config) : result Dialog :=
  inverted ← generate_layer_model get_project_layers self;
  Ok (mkDialog self (elements inverted) 0 [] EmptyString [] false false None).

(** What can happen during [self.exec()]: the user picks an entry of the
    layer selector or of the field selector, presses a button that is
    enabled, or presses a key. *)
Inductive event :=
| LayerActivated (index : nat)
| FieldActivated (name : string)
| YesToAllClicked
| NoToAllClicked
| OkClicked
| CancelClicked
| KeyPressed (key : Key).

(** The handler the event reaches through the signal connections of
    [__init__]. *)
Definition dispatch (e : event) (d : Dialog) : M unit :=
  match e with
  | LayerActivated i =>
      if (i <=? List.length (layer_wdgt_layers d))%nat
      then modify (set_layer_wdgt_index i);; on_selected_layer
      else mret tt
  | FieldActivated name =>
      if String.eqb name EmptyString
         || (0 <=? indexFromName (field_wdgt_fields d) name)
      then modify (λ d, set_field_wdgt (field_wdgt_fields d) name d);;
           on_selected_field
      else mret tt
  | YesToAllClicked =>
      if selection_button_enabled d then on_select_all else mret tt
  | NoToAllClicked =>
      if selection_button_enabled d then on_deselect_all else mret tt
  | OkClicked => if ok_button_enabled d then accept else mret tt
  | CancelClicked => reject;; on_reset_layer
  | KeyPressed key => keyPressEvent key
  end.

(** One event of the modal session; a closed dialog takes none.  The
    handler runs as a slot, the instance staying as the handler left
    it. *)
Definition step (d : Dialog) (e : event) : Dialog :=
  match dialog_result d with
  | Some _ => d
  | None => (emit (dispatch e d) d).2
  end.

(** The instance after a run of events. *)
Definition run (d : Dialog) (events : list event) : Dialog :=
  fold_left step events d.

End Dialog.

(** ** Vocabulary of the properties *)

(** The type tags the field model keeps. *)
Definition supported_type (t : Z) : bool :=
  (t =? 2) || (t =? 4) || (t =? 10) || (t =? 14) || (t =? 6).

(** The category tag a supported type is re-tagged to. *)
Definition category (t : Z) : Z :=
  if (t =? 2) || (t =? 4) then QVariant_Int
  else if t =? 10 then QVariant_String
  else if t =? 14 then QVariant_Date
  else QVariant_Double.

(** A layer field as the field model holds it. *)
Definition retagged (f : QgsField) : QgsField :=
  mkQgsField (field_name f) (category (field_type f)) (field_typeName f)
    (field_length f) (field_precision f).

(** A layer field appears in a field model, and so in the field selector
    filled from it, when the model lists its name. *)
Definition appears (f : QgsField) (model : QgsFields) : Prop :=
  field_name f ∈ field_name <$> model.

(** The name matches the key as a case-insensitive substring. *)
Definition substring_ci (key name : string) : Prop :=
  ∃ pre post, lower name = pre +:+ lower key +:+ post.

(** The name equals the key up to letter case. *)
Definition equal_ci (key name : string) : Prop := lower key = lower name.

(** The type string names one of the two layer classes, in any letter
    case. *)
Definition recognised (s : string) : Prop :=
  lower s = "vector"%string ∨ lower s = "raster"%string.

(** [x] stands before [y] in the list. *)
Definition precedes {A : Type} (x y : A) (l : list A) : Prop :=
  ∃ l1 l2 l3, l = l1 ++ x :: l2 ++ y :: l3.

(** A date of the calendar whose year has four digits. *)
Definition iso_dated (v : PyValue) : Prop :=
  match v with
  | PyDate y m d => 0 ≤ y ≤ 9999 ∧ 1 ≤ m ≤ 12 ∧ 1 ≤ d ≤ 31
  | _ => False
  end.

(** What one layer field contributes to the field model for one
    feature. *)
Definition candidate (field : QgsField) : list QgsField :=
  if supported_type (field_type field) then [retagged field] else [].

(** All fields the loops try to append, in order: under a filter, per key
    the fields of that name (letter case apart), each once per feature. *)
Definition candidates {Feature : Type} (fm : option (list string))
    (fields : QgsFields)
    (features : list Feature) : list QgsField :=
  match fm with
  | Some keys =>
      flat_map
        (λ key, flat_map
           (λ field,
              if String.eqb (lower key) (lower (field_name field))
              then flat_map (λ _, candidate field) features else [])
           fields)
        keys
  | None =>
      flat_map (λ field, flat_map (λ _, candidate field) features) fields
  end.

(** How the generator renders a value of the field: the ISO text for a
    date or time field, the default string conversion otherwise. *)
Definition render {host : Host} (field : QgsField) (v : PyValue)
  : result string :=
  if isDateOrTime field then toString_ISODate v else Ok (py_str v).

(** The value is one whose ISO text is defined, where the field asks for
    it. *)
Definition well_dated (field : QgsField) (v : PyValue) : Prop :=
  isDateOrTime field = true → iso_dated v.

(** [a] is not above [b]: the comparison [b < a] answers False. *)
Definition not_above {A : Type} (lt : A → A → result bool) (a b : A) : Prop :=
  lt b a = Ok false.

Section Vocabulary.
Context {host : Host} {Layer Feature : Type} `{Countable Layer}
  {Layer_MapLayer : MapLayer Layer Feature}.

(** The layer is of the class the type string names. *)
Definition matches_type (s : string) (layer : Layer) : Prop :=
  match type_of layer with
  | QgsVectorLayer => lower s = "vector"%string
  | QgsRasterLayer => lower s = "raster"%string
  end.

(** The layer is a vector layer of that geometry type. *)
Definition matches_geometry (g : Z) (layer : Layer) : Prop :=
  type_of layer = QgsVectorLayer ∧ wkbType layer = g.

(** The layer's name contains one of the keys, letter case apart. *)
Definition matches_name (keys : list string) (layer : Layer) : Prop :=
  ∃ key, key ∈ keys ∧ substring_ci key (layer_name layer).

(** The layers the layer selector offers: those of the project outside the
    exclusion set. *)
Definition shown (project : list Layer) (excluded : gset Layer) : gset Layer :=
  list_to_set project ∖ excluded.

(** The host's registry, for what is said of a running dialog. *)
Variable project : list Layer.

(** What a handler may change of the layer selector and the confirm
    button. *)
Definition layer_state (d : Dialog)
  : list Layer * nat * bool :=
  (inverted_layer_model d, layer_wdgt_index d, ok_button_enabled d).

(** The invariant of a session: the selector's index is one of its
    entries, and the confirm button is enabled exactly off the
    placeholder. *)
Definition session_invariant (d : Dialog) : Prop :=
  (layer_wdgt_index d ≤ List.length (layer_wdgt_layers project d))%nat
  ∧ ok_button_enabled d = negb (layer_wdgt_index d =? 0)%nat.

(** While the layer selector stands on the placeholder, the field
    selector and the value list are empty. *)
Definition idle_invariant (d : @Dialog Layer) : Prop :=
  layer_wdgt_index d = 0%nat →
  field_wdgt_fields d = [] ∧ feature_wdgt d = []
  ∧ field_wdgt_currentField d = EmptyString.

(** The statement of C1 as the claim words it: a field of the selected
    vector layer appears exactly when its type is supported and some key
    occurs in its name, letter case apart. *)
Definition C1_as_stated (self : Config) (layer : Layer) : Prop :=
  ∀ keys,
    field_matches self = Some keys → type_of layer = QgsVectorLayer →
    ∃ model,
      generate_field_model self layer = Ok model
      ∧ ∀ f, f ∈ layer_fields layer →
             appears f model
             ↔ supported_type (field_type f) = true
               ∧ ∃ key, key ∈ keys ∧ substring_ci key (field_name f).

(** The statement of C2 as the claim words it: whenever a type string and
    a geometry code are both supplied, the layers shown are those matching
    the type filter or the geometry filter. *)
Definition C2_as_stated (layers : list Layer) (self : Config) : Prop :=
  ∀ s g,
    layer_type self = LayerTypeStr s →
    geometry_type self = GeometryTypeInt g →
    ∃ excluded,
      generate_layer_model layers self = Ok excluded
      ∧ ∀ l, l ∈ shown layers excluded
             ↔ l ∈ layers ∧ (matches_type s l ∨ matches_geometry g l).

(** The statement of C9 as the claim words it: under a default geometry
    filter, a type string and a name collection of equal lengths always
    yield the empty exclusion set. *)
Definition C9_as_stated (layers : list Layer) (self : Config) : Prop :=
  ∀ s keys,
    geometry_type self = GeometryTypeDefault →
    layer_type self = LayerTypeStr s →
    layer_matches self = LayerMatchesDict keys →
    String.length s = List.length keys →
    generate_layer_model layers self = Ok ∅.

(** The statement of C7 as the claim words it: whenever the enumeration
    succeeds, the list holds the rendered values of the field, and of any
    two values a < b the text of a stands before the text of b. *)
Definition C7_as_stated (d : Dialog) : Prop :=
  ∀ texts,
    generate_feature_model project d = Ok texts →
    ∃ layer field,
      accepted_layer project d = Some layer
      ∧ accepted_field d = Some field
      ∧ let values :=
          uniqueValues layer
            (indexFromName (layer_fields layer) (field_name field)) in
        (∃ rendered,
           list_comprehension (render field) values = Ok rendered
           ∧ Permutation texts rendered)
        ∧ ∀ a b,
            a ∈ values → b ∈ values →
            py_lt a b = Ok true →
            ∃ ta tb,
              render field a = Ok ta ∧ render field b = Ok tb
              ∧ precedes ta tb texts.

(** What the enumeration reads of the instance. *)
Definition selection_frame (d : @Dialog Layer)
  : Config * list Layer * nat * QgsFields * string :=
  (attrs d, inverted_layer_model d, layer_wdgt_index d, field_wdgt_fields d,
   field_wdgt_currentField d).

(** The value list and the bulk buttons go together: with the buttons
    disabled the list is empty, with the buttons enabled it shows the
    texts enumerated for the current layer and field. *)
Definition values_invariant (d : Dialog) : Prop :=
  (selection_button_enabled d = false → feature_wdgt d = [])
  ∧ (selection_button_enabled d = true →
     ∃ texts, generate_feature_model project d = Ok texts
              ∧ (feature_wdgt d).*1 = texts).

(** The field selector holds the field model of the current layer, and
    nothing on the placeholder. *)
Definition fields_invariant (d : Dialog) : Prop :=
  match currentLayer project d with
  | Some layer => generate_field_model (attrs d) layer = Ok (field_wdgt_fields d)
  | None => field_wdgt_fields d = []
  end.

(** Every two of the values compare with [<]. *)
Definition comparable (values : list PyValue) : bool :=
  forallb
    (λ a, forallb
            (λ b, match py_lt a b with Ok _ => true | Raise _ => false end)
            values)
    values.

(** The values are such that the generator can sort and render them for
    the field: dates for a date or time field, values that compare
    otherwise. *)
Definition enumerable (field : QgsField) (values : list PyValue) : bool :=
  if isDateOrTime field
  then forallb (λ v, match v with PyDate _ _ _ => true | _ => false end)
         values
  else comparable values.

(** What the constructor stores for the generators: the class attributes
    and the excepted layers. *)
Definition construction_frame (d : @Dialog Layer) : Config * list Layer :=
  (attrs d, inverted_layer_model d).

End Vocabulary.

(** ** A small project to run the model on *)

(** The odd part of a mantissa over a power of two: [m / 2^k] in lowest
    terms. *)
Fixpoint lowest_terms (m : positive) (k : nat) : positive * nat :=
  match m, k with
  | xO m', S k' => lowest_terms m' k'
  | _, _ => (m, k)
  end.

(** The decimal expansion of [m * 2^e], which ends: the text Python gives
    for the floats of few digits, as those of the projects below. *)
Definition decimal_expansion (m : N) (e : Z) : string :=
  match m with
  | N0 => "0.0"
  | Npos p =>
      if 0 <=? e
      then DecimalString.NilZero.string_of_int
             (Z.to_int (Z.pos p * 2 ^ e)) +:+ ".0"
      else
        let '(q, k) := lowest_terms p (Z.to_nat (- e)) in
        match k with
        | O => DecimalString.NilZero.string_of_int (Z.to_int (Z.pos q))
               +:+ ".0"
        | S _ =>
            DecimalString.NilZero.string_of_int
              (Z.to_int (Z.pos q / 2 ^ Z.of_nat k))
            +:+ "."
            +:+ zfill k ((Z.pos q mod 2 ^ Z.of_nat k) * 5 ^ Z.of_nat k)
                  EmptyString
        end
  end.

Definition demo_float_str (x : pyfloat) : string :=
  match x with
  | NaN => "nan"
  | Inf negative => if negative then "-inf" else "inf"
  | Finite negative m e =>
      (if negative then "-" else "") +:+ decimal_expansion m e
  end.

(** The platform of the runs below: one that does not announce the
    changes of index made by the program. *)
#[global] Instance demo_host : Host :=
  {| float_str := demo_float_str; setCurrentIndex_emits := false |}.

(** Four layers: two line layers, a raster and a polygon layer without
    features.  The data source of Rivers answers no distinct value (its
    rows went after the layer was read). *)
Inductive DemoLayer := Roads | Rivers | Elevation | Parcels.

#[global] Instance DemoLayer_eq_dec : EqDecision DemoLayer.
Proof. solve_decision. Defined.

Definition DemoLayer_to_nat (l : DemoLayer) : nat :=
  match l with Roads => 0 | Rivers => 1 | Elevation => 2 | Parcels => 3 end.

Definition DemoLayer_of_nat (n : nat) : DemoLayer :=
  match n with
  | O => Roads
  | S O => Rivers
  | S (S O) => Elevation
  | _ => Parcels
  end.

#[global] Instance DemoLayer_countable : Countable DemoLayer.
Proof.
  apply (inj_countable' DemoLayer_to_nat DemoLayer_of_nat).
  intros []; reflexivity.
Defined.

(** A demo feature is its row of attribute values, by field name. *)
Definition DemoFeature := list (string * PyValue).

Definition demo_fields : QgsFields :=
  [ mkQgsField "status_code" 10 "String" 20 0;
    mkQgsField "lanes" 2 "Integer" 10 0;
    mkQgsField "length" 6 "Real" 20 5;
    mkQgsField "built" 14 "Date" 10 0;
    mkQgsField "shape" 12 "Binary" 0 0 ].

Definition demo_features : list DemoFeature :=
  [ [("status_code", PyStr "open"); ("lanes", PyInt 2);
     ("built", PyDate 1999 12 31)];
    [("status_code", PyStr "closed"); ("lanes", PyInt 10);
     ("built", PyDate 2004 2 29)] ]%string.

Definition demo_attribute (ft : DemoFeature) (n : string) : PyValue :=
  match List.find (λ kv, String.eqb kv.1 n) ft with
  | Some kv => kv.2
  | None => PyNull
  end.

Definition demo_uniqueValues (l : DemoLayer) (i : Z) : list PyValue :=
  match l with
  | Roads =>
      if i =? 0 then [PyStr "open"; PyStr "closed"]
      else if i =? 1 then [PyInt 10; PyInt 2]
      else if i =? 3 then [PyDate 2004 2 29; PyDate 1999 12 31]
      else []
  | _ => []
  end.

Definition demo_layer_fields (l : DemoLayer) : QgsFields :=
  match l with Elevation => [] | _ => demo_fields end.

#[global] Instance DemoLayer_MapLayer : MapLayer DemoLayer DemoFeature.
Proof.
  refine {|
    type_of l :=
      match l with Elevation => QgsRasterLayer | _ => QgsVectorLayer end;
    layer_name l :=
      match l with
      | Roads => "Main Roads"
      | Rivers => "rivers"
      | Elevation => "elevation"
      | Parcels => "parcels"
      end%string;
    wkbType l :=
      match l with Roads | Rivers => 2 | Parcels => 3 | Elevation => 0 end;
    layer_fields := demo_layer_fields;
    getFeatures l :=
      match l with Roads | Rivers => demo_features | _ => [] end;
    attribute := demo_attribute;
    uniqueValues := demo_uniqueValues;
  |}.
  intros l. refine (bool_decide_unpack _ _). destruct l; vm_compute; exact I.
Defined.

Definition demo_project : list DemoLayer := [Roads; Rivers; Elevation; Parcels].

(** A dialog built with every argument left at its default, as [__init__]
    leaves it. *)
Definition demo_config : Config :=
  mkConfig LayerMatchesDefault None None LayerTypeDefault GeometryTypeDefault.

Definition demo_dialog : @Dialog DemoLayer :=
  mkDialog demo_config [] 0 [] EmptyString [] false false None.

(** A second project, of one vector layer whose fields hold NULL among
    their values, a date of a five-digit year, and floats. *)
Inductive SurveyLayer := Wells.

#[global] Instance SurveyLayer_eq_dec : EqDecision SurveyLayer.
Proof. solve_decision. Defined.

#[global] Instance SurveyLayer_countable : Countable SurveyLayer.
Proof.
  apply (inj_countable' (λ _ : SurveyLayer, 0%nat) (λ _ : nat, Wells)).
  intros []; reflexivity.
Defined.

Definition survey_fields : QgsFields :=
  [ mkQgsField "depth" 2 "Integer" 10 0;
    mkQgsField "drilled" 14 "Date" 10 0;
    mkQgsField "sealed" 14 "Date" 10 0;
    mkQgsField "yield" 6 "Real" 20 5 ].

Definition survey_uniqueValues (l : SurveyLayer) (i : Z) : list PyValue :=
  if i =? 0 then [PyInt 30; PyNull; PyInt 12]
  else if i =? 1 then [PyNull]
  else if i =? 2 then [PyDate 10000 1 1; PyDate 2000 1 1]
  else if i =? 3 then [PyFloat (Finite false 5 (-1));
                       PyFloat (Finite false 3 (-1));
                       PyFloat (Finite false 12 0)]
  else [].

#[global] Instance SurveyLayer_MapLayer : MapLayer SurveyLayer DemoFeature.
Proof.
  refine {|
    type_of _ := QgsVectorLayer;
    layer_name _ := "wells"%string;
    wkbType _ := 1;
    layer_fields _ := survey_fields;
    getFeatures _ := [ [("depth", PyInt 30)]; [("depth", PyInt 12)];
                       [("drilled", PyNull)] ]%string;
    attribute := demo_attribute;
    uniqueValues := survey_uniqueValues;
  |}.
  intros l. refine (bool_decide_unpack _ _). vm_compute. exact I.
Defined.

Definition survey_project : list SurveyLayer := [Wells].

Definition survey_dialog : @Dialog SurveyLayer :=
  mkDialog demo_config [] 0 [] EmptyString [] false false None.

(** * Properties *)

(** ** Strings *)

Lemma startswith_app (s p : string) :
  startswith s p = true ↔ ∃ post, s = p +:+ post.
Proof.
  revert s. induction p as [|c p IH]; intros s; simpl.
  - split; [intros _; by exists s | done].
  - destruct s as [|c' s]; simpl.
    + split; [done | intros [post Hpost]; discriminate].
    + rewrite andb_true_iff, Ascii.eqb_eq, IH. split.
      * intros [-> [post ->]]. by exists post.
      * intros [post Hpost]. injection Hpost as -> ->. split; [done | by exists post].
Qed.

Lemma str_in_spec (needle hay : string) :
  str_in needle hay = true ↔ ∃ pre post, hay = pre +:+ needle +:+ post.
Proof.
  induction hay as [|c hay IH]; simpl.
  - rewrite startswith_app. split.
    + intros [post Hpost]. by exists EmptyString, post.
    + intros [pre [post Hpost]]. destruct pre; [by exists post | discriminate].
  - rewrite orb_true_iff, startswith_app, IH. split.
    + intros [[post Hpost] | [pre [post Hpost]]].
      * by exists EmptyString, post.
      * exists (String c pre), post. simpl. by rewrite Hpost.
    + intros [pre [post Hpost]]. destruct pre as [|c' pre]; simpl in Hpost.
      * left. by exists post.
      * injection Hpost as _ ->. right. by exists pre, post.
Qed.

Lemma str_in_substring_ci (key name : string) :
  str_in (lower key) (lower name) = true ↔ substring_ci key name.
Proof. apply str_in_spec. Qed.

(** ** The layer model *)

Section LayerModel.
Context {Layer Feature : Type} `{Countable Layer}
  {Layer_MapLayer : MapLayer Layer Feature}.

Lemma set_comprehension_Ok (p : Layer → bool) (ls : list Layer) :
  ∃ s : gset Layer,
    set_comprehension (λ layer, Ok (p layer)) ls = Ok s
    ∧ ∀ l, l ∈ s ↔ l ∈ ls ∧ p l = true.
Proof.
  induction ls as [|x ls [s [Hs Hin]]]; simpl.
  - exists ∅. split; [done | intros l; set_solver].
  - rewrite Hs. simpl. destruct (p x) eqn:Hp.
    + exists ({[x]} ∪ s). split; [done |]. intros l.
      rewrite elem_of_union, elem_of_singleton, Hin, elem_of_cons.
      naive_solver.
    + exists s. split; [done |]. intros l. rewrite Hin, elem_of_cons.
      split; [naive_solver |]. intros [[->|?] ?]; [congruence | done].
Qed.

Lemma set_comprehension_Raise (e : exn) (ls : list Layer) :
  ls ≠ [] → set_comprehension (λ _, Raise e) ls = Raise e.
Proof. by destruct ls. Qed.

Lemma add_name_layers_inner (keys : list string) (layer : Layer)
    (acc : gset Layer) (l : Layer) :
  l ∈ fold_left
        (λ name_layers key,
           if str_in (lower key) (lower (layer_name layer))
           then {[layer]} ∪ name_layers else name_layers)
        keys acc
  ↔ l ∈ acc ∨ (l = layer ∧ matches_name keys layer).
Proof.
  revert acc. induction keys as [|key keys IH]; intros acc; simpl.
  - unfold matches_name. set_solver.
  - rewrite IH. unfold matches_name.
    destruct (str_in _ _) eqn:Hin.
    + apply str_in_substring_ci in Hin.
      rewrite elem_of_union, elem_of_singleton. split.
      * intros [[->|?]|[-> [k [? ?]]]]; [right | by left | right].
        -- split; [done |]. exists key. split; [left | done].
        -- split; [done |]. exists k. split; [by right | done].
      * intros [?|[-> ?]]; left; [by right | by left].
    + split.
      * intros [?|[-> [k [? ?]]]]; [by left | right].
        split; [done |]. exists k. split; [by right | done].
      * intros [?|[-> [k [Hk Hsub]]]]; [by left | right].
        split; [done |]. exists k. split; [| done].
        apply elem_of_cons in Hk as [->|?]; [| done].
        apply str_in_substring_ci in Hsub. congruence.
Qed.

Lemma elem_of_add_name_layers (keys : list string) (ls : list Layer)
    (l : Layer) :
  l ∈ add_name_layers keys ls ↔ l ∈ ls ∧ matches_name keys l.
Proof.
  unfold add_name_layers.
  assert (∀ acc : gset Layer,
    l ∈ fold_left
          (λ name_layers layer,
             fold_left
               (λ name_layers key,
                  if str_in (lower key) (lower (layer_name layer))
                  then {[layer]} ∪ name_layers else name_layers)
               keys name_layers)
          ls acc
    ↔ l ∈ acc ∨ (l ∈ ls ∧ matches_name keys l)) as Hgen.
  { induction ls as [|x ls IH]; intros acc; simpl.
    - set_solver.
    - rewrite IH, add_name_layers_inner, elem_of_cons. naive_solver. }
  rewrite Hgen. set_solver.
Qed.

Lemma filter_layer_recognised (self : Config) (s : string) :
  layer_type self = LayerTypeStr s → recognised s →
  ∃ t, filter_layer self = Ok t
       ∧ ∀ l : Layer, type_of l = t ↔ matches_type s l.
Proof.
  intros Hs Hrec. unfold filter_layer, matches_type. rewrite Hs.
  destruct Hrec as [Hl|Hl]; rewrite Hl; simpl.
  - exists QgsVectorLayer. split; [done |]. intros l.
    destruct (type_of l); naive_solver.
  - exists QgsRasterLayer. split; [done |]. intros l.
    destruct (type_of l); naive_solver.
Qed.

End LayerModel.

Section LayerTheorems.
Context {Layer Feature : Type} `{Countable Layer}
  {Layer_MapLayer : MapLayer Layer Feature}.
Variable project : list Layer.

Lemma set_comprehension_ext (c1 c2 : Layer → result bool) (ls : list Layer) :
  (∀ l, c1 l = c2 l) → set_comprehension c1 ls = set_comprehension c2 ls.
Proof.
  intros Hext. induction ls as [|x ls IH]; simpl; [done |].
  by rewrite Hext, IH.
Qed.

Lemma recognised_nonempty (s : string) :
  recognised s → (String.length s =? 0)%nat = false.
Proof. destruct s; [intros [?|?]; discriminate | done]. Qed.

(** The type comprehension of line 275 when the type string is
    recognised. *)
Lemma type_layers_recognised (self : Config) (s : string) (ls : list Layer) :
  layer_type self = LayerTypeStr s → recognised s →
  ∃ type_layers : gset Layer,
    set_comprehension
      (λ layer, t ← filter_layer self; Ok (bool_decide (type_of layer = t))) ls
    = Ok type_layers
    ∧ ∀ l, l ∈ type_layers ↔ l ∈ ls ∧ matches_type s l.
Proof.
  intros Hs Hrec.
  destruct (filter_layer_recognised (Layer:=Layer) self s Hs Hrec)
    as [t [Ht Hmatch]].
  destruct (set_comprehension_Ok (λ l, bool_decide (type_of l = t)) ls)
    as [tl [Htl Hin]].
  exists tl. split.
  - rewrite <- Htl. apply set_comprehension_ext. intros l. by rewrite Ht.
  - intros l. rewrite Hin, bool_decide_eq_true, Hmatch. done.
Qed.

(** Membership in the name set of lines 280-284. *)
Lemma name_layers_spec (m : layer_matches_arg) (layers : gset Layer) (l : Layer) :
  l ∈ (if negb (len_layer_matches m =? 0)%nat
       then add_name_layers (layer_matches_keys m) (elements layers)
       else (∅ : gset Layer))
  ↔ l ∈ layers ∧ matches_name (layer_matches_keys m) l.
Proof.
  destruct (len_layer_matches m =? 0)%nat eqn:Hlen; simpl.
  - apply Nat.eqb_eq in Hlen.
    assert (layer_matches_keys m = []) as ->.
    { destruct m as [|keys]; [done |]. by destruct keys. }
    unfold matches_name. set_solver.
  - rewrite elem_of_add_name_layers, elem_of_elements. done.
Qed.

(** Membership in the geometry comprehension of line 278. *)
Lemma geom_type_layers_spec (g : Z) (layers : gset Layer) (l : Layer) :
  l ∈ (list_to_set
         (List.filter
            (λ layer, bool_decide (type_of layer ≠ QgsRasterLayer)
                      && wkbType_eq (wkbType layer) (GeometryTypeInt g))
            (elements layers)) : gset Layer)
  ↔ l ∈ layers ∧ matches_geometry g l.
Proof.
  rewrite elem_of_list_to_set, list_elem_of_In, filter_In,
    <- list_elem_of_In, elem_of_elements, andb_true_iff, bool_decide_eq_true.
  unfold matches_geometry. simpl. rewrite Z.eqb_eq.
  destruct (type_of l); naive_solver.
Qed.

Lemma filter_notin_nil (ls : list Layer) :
  List.filter (λ layer, bool_decide (layer ∉ [])) ls = ls.
Proof.
  induction ls as [|x ls IH]; [done |].
  cbn [List.filter]. rewrite bool_decide_true by set_solver. by rewrite IH.
Qed.

(** The last two lines of [generate_layer_model]: a layer is shown when
    it is allowed. *)
Lemma shown_allowed (layers : list Layer) (allowed : gset Layer) (l : Layer)
    (P : Prop) :
  (l ∈ allowed ↔ l ∈ layers ∧ P) →
  l ∈ shown layers (list_to_set layers ∖ allowed) ↔ l ∈ layers ∧ P.
Proof.
  intros Hallowed. unfold shown.
  rewrite !elem_of_difference, elem_of_list_to_set. split.
  - intros [Hl Hnot]. destruct (decide (l ∈ allowed)) as [Hin|Hout].
    + by apply Hallowed.
    + destruct Hnot. done.
  - intros HP. split; [tauto |]. intros [_ Hout]. apply Hout. by apply Hallowed.
Qed.

(** C3.  With the layer-name, layer-type and geometry-type filters all
    left at their defaults, the computed exclusion set is empty whatever
    the project holds, and the dialog built from it offers every project
    layer in the layer selector. *)
Theorem defaults_exclude_nothing (fm : option (list string))
    (title : option string) :
  let self := mkConfig LayerMatchesDefault fm title LayerTypeDefault
                GeometryTypeDefault in
  generate_layer_model project self = Ok ∅
  ∧ ∃ d, init project self = Ok d ∧ layer_wdgt_layers project d = project.
Proof.
  intros self.
  assert (generate_layer_model project self = Ok ∅) as Hgen.
  { unfold generate_layer_model. simpl. f_equal. set_solver. }
  split; [done |].
  unfold init. rewrite Hgen. simpl. eexists. split; [done |].
  unfold layer_wdgt_layers. simpl. rewrite elements_empty.
  apply filter_notin_nil.
Qed.

(** C2, amended.  When a recognised type string (vector or raster, in any
    letter case) and a geometry code other than 0 are both supplied, the
    layers shown are the project layers matching the type filter, or the
    geometry filter, or one of the supplied name substrings: a union, in
    which the type and the geometry filter never restrict one another. *)
Theorem type_and_geometry_filters_union (self : Config) (s : string) (g : Z) :
  layer_type self = LayerTypeStr s → recognised s →
  geometry_type self = GeometryTypeInt g → g ≠ 0 →
  ∃ excluded,
    generate_layer_model project self = Ok excluded
    ∧ ∀ l, l ∈ shown project excluded
           ↔ l ∈ project
             ∧ (matches_type s l ∨ matches_geometry g l
                ∨ matches_name (layer_matches_keys (layer_matches self)) l).
Proof.
  intros Hs Hrec Hg Hg0.
  unfold generate_layer_model, shown.
  destruct (type_layers_recognised self s
              (elements (list_to_set project : gset Layer)) Hs Hrec)
    as [tl [Htl Hin_tl]].
  rewrite Htl, Hs, Hg.
  cbn [mbind result_bind geometry_type_ne_0 geometry_type_eq_set
       len_layer_type].
  rewrite (recognised_nonempty s Hrec), andb_false_r.
  assert ((g =? 0) = false) as -> by (by apply Z.eqb_neq).
  cbn [negb]. eexists. split; [done |]. intros l.
  pose proof (geom_type_layers_spec g (list_to_set project) l) as Hgeom.
  pose proof (name_layers_spec (layer_matches self) (list_to_set project) l)
    as Hname.
  pose proof (Hin_tl l) as Htype. rewrite elem_of_elements in Htype.
  rewrite (elem_of_list_to_set l project) in Hgeom, Hname, Htype.
  apply shown_allowed.
  rewrite elem_of_intersection, !elem_of_union, elem_of_list_to_set.
  rewrite Htype, Hgeom, Hname. tauto.
Qed.

(** C9, amended.  Under a default geometry filter, a type string that is
    empty or recognised (vector or raster, in any letter case) and a name
    collection of the same length make the computation allow every project
    layer: the exclusion set is empty and the supplied filters have no
    effect. *)
Theorem equal_lengths_exclude_nothing (self : Config) (s : string)
    (keys : list string) :
  geometry_type self = GeometryTypeDefault →
  layer_type self = LayerTypeStr s →
  layer_matches self = LayerMatchesDict keys →
  String.length s = List.length keys →
  s = EmptyString ∨ recognised s →
  generate_layer_model project self = Ok ∅.
Proof.
  intros Hg Hs Hm Hlen Hrec.
  unfold generate_layer_model.
  assert (∃ tl : gset Layer,
    (if negb (len_layer_type (layer_type self) =? 0)%nat
     then set_comprehension
            (λ layer, t ← filter_layer self;
                      Ok (bool_decide (type_of layer = t)))
            (elements (list_to_set project : gset Layer))
     else Ok ∅) = Ok tl) as [tl ->].
  { destruct Hrec as [->|Hrec].
    - rewrite Hs. simpl. by exists ∅.
    - destruct (type_layers_recognised self s
                  (elements (list_to_set project : gset Layer)) Hs Hrec)
        as [tl [Htl _]].
      rewrite Htl. destruct (negb _); eauto. }
  simpl. rewrite Hg, Hs, Hm. simpl.
  rewrite Hlen, Nat.eqb_refl. simpl. f_equal. set_solver.
Qed.

End LayerTheorems.

(** ** The field model *)

Lemma indexFromName_range (fs : QgsFields) (n : string) :
  -1 ≤ indexFromName fs n < Z.of_nat (List.length fs).
Proof.
  induction fs as [|f fs IH]; simpl; [lia |].
  destruct (String.eqb (field_name f) n); [lia |].
  destruct (indexFromName fs n <? 0) eqn:Hneg; [lia |].
  apply Z.ltb_ge in Hneg. lia.
Qed.

Lemma indexFromName_found (fs : QgsFields) (n : string) :
  0 ≤ indexFromName fs n ↔ n ∈ field_name <$> fs.
Proof.
  induction fs as [|f fs IH]; simpl.
  - rewrite elem_of_nil. lia.
  - rewrite elem_of_cons. destruct (String.eqb (field_name f) n) eqn:Heq.
    + apply String.eqb_eq in Heq. split; [by left | lia].
    + apply String.eqb_neq in Heq.
      destruct (indexFromName fs n <? 0) eqn:Hneg.
      * apply Z.ltb_lt in Hneg. split; [lia |].
        intros [?|Hin]; [congruence |]. apply IH in Hin. lia.
      * apply Z.ltb_ge in Hneg. split; [| lia]. intros _. right. by apply IH.
Qed.

Lemma QgsFields_append_held (fs : QgsFields) (f : QgsField) :
  field_name f ∈ field_name <$> fs → QgsFields_append fs f = fs.
Proof.
  intros Hin. unfold QgsFields_append.
  apply indexFromName_found in Hin. by rewrite (Zle_imp_le_bool _ _ Hin).
Qed.

Lemma QgsFields_append_fresh (fs : QgsFields) (f : QgsField) :
  field_name f ∉ field_name <$> fs → QgsFields_append fs f = fs ++ [f].
Proof.
  intros Hout. unfold QgsFields_append.
  destruct (0 <=? indexFromName fs (field_name f)) eqn:Hle; [| done].
  apply Z.leb_le, indexFromName_found in Hle. done.
Qed.

Lemma QgsFields_append_name (fs : QgsFields) (f : QgsField) :
  field_name f ∈ field_name <$> QgsFields_append fs f.
Proof.
  destruct (decide (field_name f ∈ field_name <$> fs)) as [Hin|Hout].
  - by rewrite QgsFields_append_held.
  - rewrite QgsFields_append_fresh by done.
    rewrite fmap_app, elem_of_app. right. simpl. by left.
Qed.

(** What a run of [append] calls leaves in the container. *)
Lemma appends_sound (cs : list QgsField) (acc : QgsFields) (g : QgsField) :
  g ∈ fold_left QgsFields_append cs acc → g ∈ acc ∨ g ∈ cs.
Proof.
  revert acc. induction cs as [|c cs IH]; intros acc; simpl; [by left |].
  intros Hin. apply IH in Hin as [Hin|Hin]; [| right; by right].
  destruct (decide (field_name c ∈ field_name <$> acc)) as [Hheld|Hfresh].
  - rewrite QgsFields_append_held in Hin by done. by left.
  - rewrite QgsFields_append_fresh in Hin by done.
    apply elem_of_app in Hin as [?|Hin]; [by left |].
    apply list_elem_of_singleton in Hin as ->. right; by left.
Qed.

Lemma appends_keep (cs : list QgsField) (acc : QgsFields) (n : string) :
  n ∈ field_name <$> acc → n ∈ field_name <$> fold_left QgsFields_append cs acc.
Proof.
  revert acc. induction cs as [|c cs IH]; intros acc Hin; simpl; [done |].
  apply IH.
  destruct (decide (field_name c ∈ field_name <$> acc)) as [Hheld|Hfresh].
  - by rewrite QgsFields_append_held.
  - rewrite QgsFields_append_fresh, fmap_app, elem_of_app by done. by left.
Qed.

Lemma appends_complete (cs : list QgsField) (acc : QgsFields) (c : QgsField) :
  c ∈ cs → field_name c ∈ field_name <$> fold_left QgsFields_append cs acc.
Proof.
  revert acc. induction cs as [|c' cs IH]; intros acc Hin; simpl.
  - by apply elem_of_nil in Hin.
  - apply elem_of_cons in Hin as [->|Hin]; [| by apply IH].
    apply appends_keep, QgsFields_append_name.
Qed.

Lemma fold_left_flat_map {A B C : Type} (g : C → B → C) (h : A → list B)
    (xs : list A) (acc : C) :
  fold_left (λ acc x, fold_left g (h x) acc) xs acc
  = fold_left g (flat_map h xs) acc.
Proof.
  revert acc. induction xs as [|x xs IH]; intros acc; simpl; [done |].
  by rewrite fold_left_app, IH.
Qed.

(** A loop whose body never raises and acts on the first loop variable as
    [f] does is the fold of [f]. *)
Lemma for_each_fold {A S T : Type} (xs : list A) (body : A → S * T → result (S * T))
    (f : S → A → S) :
  (∀ x st, ∃ st', body x st = Ok st' ∧ st'.1 = f st.1 x) →
  ∀ st, ∃ st', for_each xs body st = Ok st' ∧ st'.1 = fold_left f xs st.1.
Proof.
  intros Hbody. induction xs as [|x xs IH]; intros st; simpl.
  - by exists st.
  - destruct (Hbody x st) as [st1 [-> Hst1]]. simpl.
    destruct (IH st1) as [st2 [-> Hst2]]. exists st2.
    split; [done |]. by rewrite Hst2, Hst1.
Qed.

Section FieldModel.
Context {Layer Feature : Type} `{Countable Layer}
  {Layer_MapLayer : MapLayer Layer Feature}.

(** An arm of the chain never raises: the index it writes at is the one of
    the field just appended (or already held). *)
Lemma append_retagged_Ok (ty : Z) (field : QgsField) (feature : Feature)
    (st : QgsFields * QgsFeature) :
  ∃ st', append_retagged ty field feature st = Ok st'
         ∧ st'.1 = QgsFields_append st.1
                     (mkQgsField (field_name field) ty (field_typeName field)
                        (field_length field) (field_precision field)).
Proof.
  unfold append_retagged, setAttribute, setFields. simpl.
  set (g := mkQgsField _ _ _ _ _).
  pose proof (QgsFields_append_name st.1 g) as Hname.
  apply indexFromName_found in Hname.
  pose proof (indexFromName_range (QgsFields_append st.1 g) (field_name g))
    as Hrange.
  change (field_name g) with (field_name field) in *.
  rewrite length_replicate.
  rewrite (Zle_imp_le_bool _ _ Hname).
  assert ((indexFromName (QgsFields_append st.1 g) (field_name field)
           <? Z.of_nat (List.length (QgsFields_append st.1 g))) = true) as ->
    by (apply Z.ltb_lt; lia).
  simpl. eauto.
Qed.

Lemma retag_field_Ok (field : QgsField) (feature : Feature)
    (st : QgsFields * QgsFeature) :
  ∃ st', retag_field field feature st = Ok st'
         ∧ st'.1 = fold_left QgsFields_append (candidate field) st.1.
Proof.
  unfold retag_field, candidate, supported_type, retagged, category.
  destruct (field_type field =? 2) eqn:H2; simpl;
    [apply append_retagged_Ok |].
  destruct (field_type field =? 4) eqn:H4; simpl;
    [apply append_retagged_Ok |].
  destruct (field_type field =? 10) eqn:H10; simpl;
    [apply append_retagged_Ok |].
  destruct (field_type field =? 14) eqn:H14; simpl;
    [apply append_retagged_Ok |].
  destruct (field_type field =? 6) eqn:H6; simpl;
    [apply append_retagged_Ok |].
  by exists st.
Qed.

Lemma feature_loop_Ok (field : QgsField) (features : list Feature)
    (st : QgsFields * QgsFeature) :
  ∃ st', for_each features (retag_field field) st = Ok st'
         ∧ st'.1 = fold_left QgsFields_append
                     (flat_map (λ _, candidate field) features) st.1.
Proof.
  destruct (for_each_fold features (retag_field field)
              (λ acc _, fold_left QgsFields_append (candidate field) acc)
              (λ feature st, retag_field_Ok field feature st) st)
    as [st' [Hrun Hst']].
  exists st'. split; [done |]. by rewrite Hst', fold_left_flat_map.
Qed.

(** The loop over the fields under one key of the filter. *)
Lemma key_loop_body_Ok (key : string) (fields : QgsFields)
    (features : list Feature) (st : QgsFields * QgsFeature) :
  ∃ st',
    for_each fields
      (λ field st,
         if String.eqb (lower key) (lower (field_name field))
         then for_each features (retag_field field) st
         else Ok st) st = Ok st'
    ∧ st'.1 = fold_left QgsFields_append
                (flat_map
                   (λ field,
                      if String.eqb (lower key) (lower (field_name field))
                      then flat_map (λ _, candidate field) features
                      else [])
                   fields) st.1.
Proof.
  rewrite <- fold_left_flat_map.
  apply (for_each_fold fields _
           (λ acc field,
              fold_left QgsFields_append
                (if String.eqb (lower key) (lower (field_name field))
                 then flat_map (λ _, candidate field) features
                 else []) acc)).
  intros field st0. destruct (String.eqb _ _).
  - apply feature_loop_Ok.
  - by exists st0.
Qed.

(** [generate_field_model] never raises: on a vector layer it returns the
    container left by appending the candidates in order. *)
Lemma generate_field_model_Ok (self : Config) (layer : Layer) :
  generate_field_model self layer
  = Ok (if bool_decide (type_of layer ≠ QgsRasterLayer)
        then fold_left QgsFields_append
               (candidates (field_matches self) (layer_fields layer)
                  (getFeatures layer)) []
        else []).
Proof.
  unfold generate_field_model, candidates.
  destruct (bool_decide (type_of layer ≠ QgsRasterLayer)); [| done].
  destruct (field_matches self) as [keys|].
  - rewrite <- fold_left_flat_map.
    destruct (for_each_fold keys _
                (λ acc key,
                   fold_left QgsFields_append
                     (flat_map
                        (λ field,
                           if String.eqb (lower key) (lower (field_name field))
                           then flat_map (λ _, candidate field)
                                  (getFeatures layer)
                           else [])
                        (layer_fields layer)) acc)
                (λ key st, key_loop_body_Ok key (layer_fields layer)
                             (getFeatures layer) st)
                (([], QgsFeature_new) : QgsFields * QgsFeature))
      as [st' [Hrun Hst']].
    match goal with
    | |- (?m ≫= _) = _ => replace m with (Ok st') by (symmetry; exact Hrun)
    end.
    simpl. by rewrite Hst'.
  - rewrite <- fold_left_flat_map.
    destruct (for_each_fold (layer_fields layer) _
                (λ acc field,
                   fold_left QgsFields_append
                     (flat_map (λ _, candidate field) (getFeatures layer)) acc)
                (λ field st, feature_loop_Ok field (getFeatures layer) st)
                (([], QgsFeature_new) : QgsFields * QgsFeature))
      as [st' [Hrun Hst']].
    match goal with
    | |- (?m ≫= _) = _ => replace m with (Ok st') by (symmetry; exact Hrun)
    end.
    simpl. by rewrite Hst'.
Qed.

End FieldModel.

Lemma NoDup_names_inj (fs : QgsFields) (f f' : QgsField) :
  NoDup (field_name <$> fs) → f ∈ fs → f' ∈ fs →
  field_name f = field_name f' → f = f'.
Proof.
  induction fs as [|x fs IH]; simpl; intros Hnd Hf Hf' Hname.
  - by apply elem_of_nil in Hf.
  - apply NoDup_cons in Hnd as [Hx Hnd].
    apply elem_of_cons in Hf as [->|Hf]; apply elem_of_cons in Hf' as [->|Hf'].
    + done.
    + destruct Hx. rewrite Hname. by apply list_elem_of_fmap_2.
    + destruct Hx. rewrite <- Hname. by apply list_elem_of_fmap_2.
    + by apply IH.
Qed.

Section FieldTheorems.
Context {Layer Feature : Type} `{Countable Layer}
  {Layer_MapLayer : MapLayer Layer Feature}.

Lemma elem_of_candidate (c field : QgsField) :
  c ∈ candidate field
  ↔ supported_type (field_type field) = true ∧ c = retagged field.
Proof.
  unfold candidate. destruct (supported_type _).
  - rewrite list_elem_of_singleton. naive_solver.
  - rewrite elem_of_nil. naive_solver.
Qed.

Lemma elem_of_per_feature (c field : QgsField) (features : list Feature) :
  c ∈ flat_map (λ _, candidate field) features
  ↔ features ≠ [] ∧ supported_type (field_type field) = true
    ∧ c = retagged field.
Proof.
  rewrite list_elem_of_In, in_flat_map. split.
  - intros [ft [Hft Hc]]. apply list_elem_of_In, elem_of_candidate in Hc.
    split; [by destruct features | done].
  - intros [Hne Hc]. destruct features as [|ft features]; [done |].
    exists ft. split; [by left |]. by apply list_elem_of_In, elem_of_candidate.
Qed.

Lemma elem_of_candidates_Some (c : QgsField) (keys : list string)
    (fields : QgsFields) (features : list Feature) :
  c ∈ candidates (Some keys) fields features
  ↔ ∃ key field,
      key ∈ keys ∧ field ∈ fields ∧ equal_ci key (field_name field)
      ∧ features ≠ [] ∧ supported_type (field_type field) = true
      ∧ c = retagged field.
Proof.
  unfold candidates, equal_ci. rewrite list_elem_of_In, in_flat_map. split.
  - intros [key [Hkey Hc]]. apply in_flat_map in Hc as [field [Hfield Hc]].
    destruct (String.eqb _ _) eqn:Heq; [| done].
    apply String.eqb_eq in Heq.
    apply list_elem_of_In, elem_of_per_feature in Hc.
    exists key, field. rewrite !list_elem_of_In. naive_solver.
  - intros [key [field [Hkey [Hfield [Heq Hc]]]]].
    exists key. split; [by apply list_elem_of_In |].
    apply in_flat_map. exists field. split; [by apply list_elem_of_In |].
    apply String.eqb_eq in Heq. rewrite Heq.
    by apply list_elem_of_In, elem_of_per_feature.
Qed.

Lemma elem_of_candidates_None (c : QgsField) (fields : QgsFields)
    (features : list Feature) :
  c ∈ candidates None fields features
  ↔ ∃ field,
      field ∈ fields ∧ features ≠ []
      ∧ supported_type (field_type field) = true ∧ c = retagged field.
Proof.
  unfold candidates. rewrite list_elem_of_In, in_flat_map. split.
  - intros [field [Hfield Hc]].
    apply list_elem_of_In, elem_of_per_feature in Hc.
    exists field. rewrite list_elem_of_In. naive_solver.
  - intros [field [Hfield Hc]]. exists field.
    split; [by apply list_elem_of_In |].
    by apply list_elem_of_In, elem_of_per_feature.
Qed.

(** Every candidate is the re-tagged copy of a layer field of a supported
    type. *)
Lemma candidates_supported (c : QgsField) (fm : option (list string))
    (fields : QgsFields) (features : list Feature) :
  c ∈ candidates fm fields features →
  ∃ field, field ∈ fields ∧ supported_type (field_type field) = true
           ∧ c = retagged field.
Proof.
  destruct fm as [keys|].
  - rewrite elem_of_candidates_Some. naive_solver.
  - rewrite elem_of_candidates_None. naive_solver.
Qed.

Lemma candidates_no_features (fm : option (list string)) (fields : QgsFields) :
  candidates fm fields ([] : list Feature) = [].
Proof.
  apply elem_of_nil_inv. intros c Hc.
  destruct fm as [keys|].
  - apply elem_of_candidates_Some in Hc. naive_solver.
  - apply elem_of_candidates_None in Hc. naive_solver.
Qed.

(** A field model holds a layer field of unique name exactly when that
    field is a candidate. *)
Lemma appears_iff_candidate (fm : option (list string)) (fields : QgsFields)
    (features : list Feature) (f : QgsField) :
  NoDup (field_name <$> fields) → f ∈ fields →
  appears f (fold_left QgsFields_append (candidates fm fields features) [])
  ↔ retagged f ∈ candidates fm fields features.
Proof.
  intros Hnd Hf. unfold appears. split.
  - intros Hname. apply list_elem_of_fmap in Hname as [g [Hname Hg]].
    apply appends_sound in Hg as [Hg|Hg]; [by apply elem_of_nil in Hg |].
    pose proof Hg as Hg'.
    apply candidates_supported in Hg' as [f' [Hf' [_ ->]]].
    simpl in Hname.
    by rewrite (NoDup_names_inj fields f f' Hnd Hf Hf' Hname).
  - intros Hc. exact (appends_complete _ [] _ Hc).
Qed.

Lemma retagged_inj_on (fields : QgsFields) (f f' : QgsField) :
  NoDup (field_name <$> fields) → f ∈ fields → f' ∈ fields →
  retagged f = retagged f' → f = f'.
Proof.
  intros Hnd Hf Hf' Heq. apply (NoDup_names_inj fields); try done.
  by apply (f_equal field_name) in Heq.
Qed.

(** C1, amended.  Under a field filter, a field of a selected vector layer
    that has at least one feature appears in the field model exactly when
    its type is one of the supported categories and its name equals some
    key of the mapping, letter case apart (a key that only occurs inside
    the name does not select the field). *)
Theorem field_filter_selects_equal_names (self : Config) (layer : Layer)
    (keys : list string) (f : QgsField) :
  field_matches self = Some keys →
  type_of layer = QgsVectorLayer →
  getFeatures layer ≠ [] →
  f ∈ layer_fields layer →
  ∃ model,
    generate_field_model self layer = Ok model
    ∧ (appears f model
       ↔ supported_type (field_type f) = true
         ∧ ∃ key, key ∈ keys ∧ equal_ci key (field_name f)).
Proof.
  intros Hfm Hvec Hfeat Hf.
  pose proof (layer_fields_NoDup layer) as Hnd.
  rewrite generate_field_model_Ok, Hfm.
  rewrite bool_decide_true by (by rewrite Hvec).
  eexists. split; [done |].
  rewrite appears_iff_candidate, elem_of_candidates_Some by done. split.
  - intros [key [f' [Hkey [Hf' [Heq [_ [Hsup Hre]]]]]]].
    apply (retagged_inj_on _ _ _ Hnd Hf Hf') in Hre as <-. eauto.
  - intros [Hsup [key [Hkey Heq]]]. exists key, f. done.
Qed.

(** C6.  Whatever the field-name filter, a field of the selected layer
    whose type tag is outside 2, 4, 10, 14 and 6 does not appear in the
    produced field model: the model holds no field of its name. *)
Theorem unsupported_type_never_appears (self : Config) (layer : Layer)
    (f : QgsField) :
  f ∈ layer_fields layer →
  supported_type (field_type f) = false →
  ∃ model,
    generate_field_model self layer = Ok model ∧ ¬ appears f model.
Proof.
  intros Hf Hunsup. pose proof (layer_fields_NoDup layer) as Hnd.
  rewrite generate_field_model_Ok.
  eexists. split; [done |]. unfold appears.
  destruct (bool_decide _); [| simpl; apply not_elem_of_nil].
  intros Hname. apply list_elem_of_fmap in Hname as [g [Hname Hg]].
  apply appends_sound in Hg as [Hg|Hg]; [by apply elem_of_nil in Hg |].
  apply candidates_supported in Hg as [f' [Hf' [Hsup ->]]].
  simpl in Hname.
  rewrite (NoDup_names_inj _ f f' Hnd Hf Hf' Hname) in Hunsup. congruence.
Qed.

(** C10.  For a selected layer without features the produced field model
    is empty, whatever the layer's fields and the field-name filter: a
    field is appended once per feature only. *)
Theorem featureless_layer_has_empty_field_model (self : Config)
    (layer : Layer) :
  getFeatures layer = [] → generate_field_model self layer = Ok [].
Proof.
  intros Hnone. rewrite generate_field_model_Ok, Hnone.
  rewrite candidates_no_features. by destruct (bool_decide _).
Qed.

End FieldTheorems.

(** ** The signal handlers *)

(** Runs a handler: unfolds it down to the widget calls. *)
Ltac run_handler :=
  unfold on_reset_layer, layer_wdgt_setCurrentIndex,
    field_wdgt_setCurrentIndex_0, on_selected_layer, on_selected_field,
    on_select_all, on_deselect_all, accept, reject, keyPressEvent,
    emit, try_except, feature_wdgt_clear, feature_wdgt_addItems,
    feature_wdgt_count, selection_button_setDisabled, ok_button_setDisabled,
    field_wdgt_setFields, reads, modify, mbind, mret, M_bind, M_ret;
  cbn.

Section Handlers.
Context {host : Host} {Layer Feature : Type} `{Countable Layer}
  {Layer_MapLayer : MapLayer Layer Feature}.
Variable project : list Layer.

(** The attribute-value list does not depend on what the value list
    shows or on the buttons. *)
Lemma generate_feature_model_frame (d : Dialog) items :
  generate_feature_model project (set_feature_wdgt items d)
  = generate_feature_model project d.
Proof. reflexivity. Qed.

(** [on_selected_field] in one step: it never raises, and leaves the value
    list and the bulk buttons as the outcome of the enumeration decides. *)
Lemma on_selected_field_unfold (d : Dialog) :
  on_selected_field project d
  = (Ok tt,
     match generate_feature_model project d with
     | Ok attribute_values =>
         set_selection_button_enabled true
           (set_feature_wdgt ((λ t, (t, false)) <$> attribute_values) d)
     | Raise _ =>
         set_feature_wdgt [] (set_selection_button_enabled false d)
     end).
Proof.
  run_handler. rewrite generate_feature_model_frame.
  destruct (generate_feature_model project d); reflexivity.
Qed.

(** C5.  When computing the attribute-value list fails, for whatever
    reason, the field handler returns normally (no exception leaves it),
    with the value list cleared and the bulk select/deselect buttons
    disabled. *)
Theorem failed_enumeration_is_absorbed (d : Dialog) (e : exn) :
  generate_feature_model project d = Raise e →
  ∃ d', on_selected_field project d = (Ok tt, d')
        ∧ feature_wdgt d' = []
        ∧ selection_button_enabled d' = false.
Proof.
  intros Hfail. rewrite on_selected_field_unfold, Hfail.
  eexists. split; [reflexivity |]. by split.
Qed.

(** The reasons C5 names are failures of the enumeration. *)
Lemma no_layer_selected_fails (d : Dialog) :
  accepted_layer project d = None →
  generate_feature_model project d = Raise AttributeError.
Proof. intros Hnone. unfold generate_feature_model. by rewrite Hnone. Qed.

Lemma no_field_selected_fails (d : Dialog) :
  accepted_field d = None →
  generate_feature_model project d = Raise AttributeError.
Proof.
  intros Hnone. unfold generate_feature_model. rewrite Hnone.
  destruct (accepted_layer project d); [| done]. by destruct (bool_decide _).
Qed.

(** When the enumeration succeeds, the field handler shows exactly the
    returned texts, unchecked, and enables the bulk select/deselect
    buttons. *)
Theorem successful_enumeration_fills_value_list (d : Dialog)
    (texts : list string) :
  generate_feature_model project d = Ok texts →
  ∃ d', on_selected_field project d = (Ok tt, d')
        ∧ feature_wdgt d' = (λ t, (t, false)) <$> texts
        ∧ selection_button_enabled d' = true.
Proof.
  intros Hvalues. rewrite on_selected_field_unfold, Hvalues.
  eexists. split; [reflexivity |]. by split.
Qed.

(** The code on the scenario of C4: when the enumeration succeeds with no
    value, the field handler leaves the value list empty and the confirm
    button as it was, and it enables the bulk select/deselect buttons. *)
Theorem zero_values_enable_bulk_buttons (d : Dialog) :
  generate_feature_model project d = Ok [] →
  ∃ d', on_selected_field project d = (Ok tt, d')
        ∧ feature_wdgt d' = []
        ∧ selection_button_enabled d' = true
        ∧ ok_button_enabled d' = ok_button_enabled d.
Proof.
  intros Hnone. rewrite on_selected_field_unfold, Hnone.
  eexists. split; [reflexivity |]. by repeat split.
Qed.

Lemma on_selected_field_layer_state (d : Dialog) :
  layer_state (on_selected_field project d).2 = layer_state d.
Proof.
  rewrite on_selected_field_unfold. simpl.
  by destruct (generate_feature_model project d).
Qed.

(** [on_selected_layer] sets the confirm button by the selector's index,
    whether or not the rest of the handler completes. *)
Lemma on_selected_layer_layer_state (d : Dialog) :
  layer_state (on_selected_layer project d).2
  = (inverted_layer_model d, layer_wdgt_index d,
     negb (layer_wdgt_index d =? 0)%nat).
Proof.
  run_handler. destruct (layer_wdgt_index d =? 0)%nat eqn:Hidx; cbn.
  - reflexivity.
  - destruct (match currentLayer project _ with
              | Some layer => _
              | None => _
              end); reflexivity.
Qed.

(** A slot leaves the instance as the handler it runs does, and returns
    normally. *)
Lemma emit_unfold (slot : @M Layer unit) (d : Dialog) :
  emit slot d = (Ok tt, (slot d).2).
Proof.
  unfold emit, try_except. by destruct (slot d) as [[[]|e] d'].
Qed.

(** [on_reset_layer] in one step. *)
Lemma on_reset_layer_unfold (d : Dialog) :
  on_reset_layer project d
  = (Ok tt,
     let d1 := if (layer_wdgt_index d =? 0)%nat then d
               else if setCurrentIndex_emits
                    then (on_selected_layer project
                            (set_layer_wdgt_index 0 d)).2
                    else set_layer_wdgt_index 0 d in
     if String.eqb (field_wdgt_currentField d1) EmptyString then d1
     else if setCurrentIndex_emits
          then (on_selected_field project
                  (set_field_wdgt (field_wdgt_fields d1) EmptyString d1)).2
          else set_field_wdgt (field_wdgt_fields d1) EmptyString d1).
Proof.
  unfold on_reset_layer, layer_wdgt_setCurrentIndex,
    field_wdgt_setCurrentIndex_0.
  unfold mbind, M_bind, reads, modify, mret, M_ret. cbn beta iota zeta.
  destruct (layer_wdgt_index d =? 0)%nat; destruct setCurrentIndex_emits;
    rewrite ?emit_unfold; cbn beta iota;
    destruct (String.eqb _ EmptyString); rewrite ?emit_unfold; done.
Qed.

(** No handler but [accept] and [reject] ends the session. *)
Lemma on_selected_field_result (d : Dialog) :
  dialog_result (on_selected_field project d).2 = dialog_result d.
Proof.
  rewrite on_selected_field_unfold. simpl.
  by destruct (generate_feature_model project d).
Qed.

Lemma on_selected_layer_result (d : Dialog) :
  dialog_result (on_selected_layer project d).2 = dialog_result d.
Proof.
  run_handler. destruct (layer_wdgt_index d =? 0)%nat eqn:Hidx; cbn.
  - reflexivity.
  - destruct (match currentLayer project _ with
              | Some layer => _
              | None => _
              end); reflexivity.
Qed.

Lemma on_reset_layer_result (d : Dialog) :
  dialog_result (on_reset_layer project d).2 = dialog_result d.
Proof.
  rewrite on_reset_layer_unfold. cbn [snd].
  assert (dialog_result
            (if (layer_wdgt_index d =? 0)%nat then d
             else if setCurrentIndex_emits
                  then (on_selected_layer project
                          (set_layer_wdgt_index 0 d)).2
                  else set_layer_wdgt_index 0 d)
          = dialog_result d) as Hd1.
  { destruct (layer_wdgt_index d =? 0)%nat; [done |].
    destruct setCurrentIndex_emits; [| done].
    by rewrite on_selected_layer_result. }
  cbn zeta. destruct (String.eqb _ EmptyString); [done |].
  destruct setCurrentIndex_emits; [| done].
  by rewrite on_selected_field_result.
Qed.

(** [on_reset_layer] leaves the layer selector on its placeholder and the
    field selector on its blank entry. *)
Lemma on_reset_layer_selectors (d : Dialog) :
  layer_wdgt_index (on_reset_layer project d).2 = 0%nat
  ∧ field_wdgt_currentField (on_reset_layer project d).2 = EmptyString.
Proof.
  rewrite on_reset_layer_unfold. cbn [snd].
  set (d1 := if (layer_wdgt_index d =? 0)%nat then d
             else if setCurrentIndex_emits
                  then (on_selected_layer project
                          (set_layer_wdgt_index 0 d)).2
                  else set_layer_wdgt_index 0 d).
  assert (layer_wdgt_index d1 = 0%nat) as Hidx.
  { subst d1. destruct (layer_wdgt_index d =? 0)%nat eqn:Hidx.
    - by apply Nat.eqb_eq in Hidx.
    - destruct setCurrentIndex_emits; [| done].
      change (layer_wdgt_index ?x) with (layer_state x).1.2.
      by rewrite on_selected_layer_layer_state. }
  cbn zeta. destruct (String.eqb _ EmptyString) eqn:Hcur.
  - apply String.eqb_eq in Hcur. done.
  - destruct setCurrentIndex_emits; [| done].
    split.
    + change (layer_wdgt_index ?x) with (layer_state x).1.2.
      by rewrite on_selected_field_layer_state.
    + rewrite on_selected_field_unfold. cbn [snd].
      by destruct (generate_feature_model project _).
Qed.

(** On a platform that does not announce the program's changes of index,
    [on_reset_layer] moves the two selectors and touches nothing else. *)
Lemma on_reset_layer_quiet (d : Dialog) :
  setCurrentIndex_emits = false →
  (on_reset_layer project d).2
  = set_field_wdgt (field_wdgt_fields d) EmptyString
      (set_layer_wdgt_index 0 d).
Proof.
  intros Hquiet. rewrite on_reset_layer_unfold, Hquiet. cbn [snd].
  destruct d as [a inv idx fs cur items sel ok res]. cbn.
  destruct (idx =? 0)%nat eqn:Hidx; cbn.
  - apply Nat.eqb_eq in Hidx as ->.
    destruct (String.eqb cur EmptyString) eqn:Hcur; [| done].
    by apply String.eqb_eq in Hcur as ->.
  - destruct (String.eqb cur EmptyString) eqn:Hcur; [| done].
    by apply String.eqb_eq in Hcur as ->.
Qed.

Lemma layer_wdgt_layers_frame (d d' : Dialog) :
  inverted_layer_model d' = inverted_layer_model d →
  layer_wdgt_layers project d' = layer_wdgt_layers project d.
Proof. intros Hinv. unfold layer_wdgt_layers. by rewrite Hinv. Qed.

Lemma session_invariant_layer_state (d d' : Dialog) (i : nat) :
  (i ≤ List.length (layer_wdgt_layers project d))%nat →
  layer_state d' = (inverted_layer_model d, i, negb (i =? 0)%nat) →
  session_invariant project d'.
Proof.
  intros Hi Hstate. unfold layer_state in Hstate.
  injection Hstate as Hinv Hidx Hok. unfold session_invariant.
  by rewrite (layer_wdgt_layers_frame d d' Hinv), Hidx, Hok.
Qed.

Lemma session_invariant_frame (d d' : Dialog) :
  session_invariant project d → layer_state d' = layer_state d →
  session_invariant project d'.
Proof.
  intros [Hidx Hok] Hstate.
  apply (session_invariant_layer_state d d' (layer_wdgt_index d) Hidx).
  rewrite Hstate. unfold layer_state. by rewrite Hok.
Qed.

(** *** Sessions that are not cancelled *)

(** A closed dialog takes no event. *)
Lemma run_closed (d : Dialog) (r : DialogCode) (events : list event) :
  dialog_result d = Some r → run project d events = d.
Proof.
  intros Hres. induction events as [|e events IH]; [done |].
  assert (step project d e = d) as Hstep by (unfold step; by rewrite Hres).
  unfold run in *. simpl. by rewrite Hstep.
Qed.

(** What an event does that leaves the session open or accepted: nothing,
    or it runs the layer handler on an entry of the layer selector, the
    field handler on an entry of the field selector, one of the bulk
    handlers while they are enabled, or [accept]. *)
Lemma step_unrejected (d : Dialog) (e : event) :
  dialog_result (step project d e) ≠ Some Rejected →
  step project d e = d
  ∨ (∃ i, (i ≤ List.length (layer_wdgt_layers project d))%nat
          ∧ step project d e
            = (on_selected_layer project (set_layer_wdgt_index i d)).2)
  ∨ (∃ name, (name = EmptyString
              ∨ 0 ≤ indexFromName (field_wdgt_fields d) name)
             ∧ step project d e
               = (on_selected_field project
                    (set_field_wdgt (field_wdgt_fields d) name d)).2)
  ∨ (selection_button_enabled d = true
     ∧ ∃ b, step project d e
            = set_feature_wdgt ((λ it, (it.1, b)) <$> feature_wdgt d) d)
  ∨ step project d e = set_dialog_result (Some Accepted) d.
Proof.
  unfold step. destruct (dialog_result d); [by left |].
  rewrite emit_unfold. change ((Ok (), ?x).2) with x.
  destruct e as [i|name| | | | |key]; unfold dispatch.
  - intros _. destruct (i <=? _)%nat eqn:Hi; [| by left].
    apply Nat.leb_le in Hi. right. left. by exists i.
  - intros _. destruct (_ || _) eqn:Hname; [| by left].
    right. right. left. exists name. split; [| done].
    apply orb_true_iff in Hname as [Hname|Hname].
    + left. by apply String.eqb_eq in Hname.
    + right. by apply Z.leb_le in Hname.
  - intros _. destruct (selection_button_enabled d); [| by left].
    do 3 right. left. split; [done |]. by exists true.
  - intros _. destruct (selection_button_enabled d); [| by left].
    do 3 right. left. split; [done |]. by exists false.
  - intros _. destruct (ok_button_enabled d); [| by left]. by do 4 right.
  - intros Hopen. exfalso. apply Hopen.
    exact (on_reset_layer_result (set_dialog_result (Some Rejected) d)).
  - unfold keyPressEvent. destruct key; cbn [bool_decide decide_rel].
    + intros Hopen. exfalso. apply Hopen.
      exact (on_reset_layer_result (set_dialog_result (Some Rejected) d)).
    + intros _. by do 4 right.
    + intros _. by left.
Qed.

(** A property kept by the events that do not cancel holds as long as the
    session is not cancelled. *)
Lemma run_unrejected (I : Dialog → Prop) :
  (∀ d e, I d → dialog_result (step project d e) ≠ Some Rejected →
          I (step project d e)) →
  ∀ events d,
    I d → dialog_result (run project d events) ≠ Some Rejected →
    I (run project d events).
Proof.
  intros Hstep events.
  induction events as [|e events IH]; intros d Hd Hrun; [done |].
  simpl in *. apply IH; [| done]. apply Hstep; [done |].
  intros Hrej. apply Hrun. by rewrite (run_closed _ Rejected).
Qed.

Lemma step_session_invariant (d : Dialog) (e : event) :
  session_invariant project d →
  dialog_result (step project d e) ≠ Some Rejected →
  session_invariant project (step project d e).
Proof.
  intros Hinv Hopen. pose proof Hinv as [Hidx Hok].
  destruct (step_unrejected d e Hopen)
    as [->|[(i & Hi & ->)|[(name & _ & ->)|[(_ & b & ->)| ->]]]];
    try done.
  - apply (session_invariant_layer_state d _ i Hi).
    by rewrite on_selected_layer_layer_state.
  - apply (session_invariant_frame d); [done |].
    by rewrite on_selected_field_layer_state.
Qed.

Lemma init_session_invariant (self : Config) (d0 : Dialog) :
  init project self = Ok d0 → session_invariant project d0.
Proof.
  unfold init. destruct (generate_layer_model project self); [| done].
  intros [= <-]. split; simpl; [lia | done].
Qed.

Lemma run_session_invariant (self : Config) (d0 : Dialog)
    (events : list event) :
  init project self = Ok d0 →
  dialog_result (run project d0 events) ≠ Some Rejected →
  session_invariant project (run project d0 events).
Proof.
  intros Hinit. apply (run_unrejected (session_invariant project)).
  - apply step_session_invariant.
  - by apply (init_session_invariant self).
Qed.



End Handlers.

(** ** Sorting *)

Section Sorting.
Context {A : Type} (lt : A → A → result bool) (P : A → Prop).

Hypothesis lt_asym : ∀ a b, lt a b = Ok true → lt b a = Ok false.
Hypothesis not_above_trans :
  ∀ a b c, P b → not_above lt a b → not_above lt b c → not_above lt a c.

Lemma insort_spec (x : A) (s r : list A) :
  Forall P s →
  StronglySorted (not_above lt) s → insort lt x s = Ok r →
  Permutation r (x :: s) ∧ StronglySorted (not_above lt) r.
Proof.
  revert r. induction s as [|y s IH]; simpl; intros r HP Hsorted Hr.
  - injection Hr as <-. split; [done |]. repeat constructor.
  - apply StronglySorted_inv in Hsorted as [Hs Hy].
    apply Forall_cons in HP as [HPy HPs].
    destruct (lt y x) as [[|]|e] eqn:Hlt; simpl in Hr; [| | done].
    + destruct (insort lt x s) as [r'|e] eqn:Hins; simpl in Hr; [| done].
      injection Hr as <-. destruct (IH r' HPs Hs eq_refl) as [Hperm Hr'].
      split.
      * rewrite Hperm. apply perm_swap.
      * constructor; [done |].
        rewrite Hperm. constructor; [| done]. by apply lt_asym.
    + injection Hr as <-. split; [done |].
      constructor; [by constructor |].
      constructor; [done |].
      eapply Forall_impl; [exact Hy |]. intros z Hz.
      by apply (not_above_trans x y z).
Qed.

Lemma list_sort_spec (l s : list A) :
  Forall P l →
  list_sort lt l = Ok s → Permutation s l ∧ StronglySorted (not_above lt) s.
Proof.
  revert s. induction l as [|x l IH]; simpl; intros s HP Hs.
  - injection Hs as <-. split; [done | constructor].
  - apply Forall_cons in HP as [HPx HPl].
    destruct (list_sort lt l) as [s'|e]; simpl in Hs; [| done].
    destruct (IH s' HPl eq_refl) as [Hperm Hsorted].
    assert (Forall P s') as HPs by (by rewrite Hperm).
    destruct (insort_spec x s' s HPs Hsorted Hs) as [Hperm' Hsorted'].
    split; [| done]. by rewrite Hperm', Hperm.
Qed.

(** In an ascending list the smaller of two entries stands first. *)
Lemma sorted_precedes (s : list A) (a b : A) :
  StronglySorted (not_above lt) s → a ∈ s → b ∈ s → lt a b = Ok true →
  precedes a b s.
Proof.
  intros Hsorted Ha Hb Hlt.
  assert (a ≠ b) as Hne.
  { intros ->. pose proof (lt_asym b b Hlt). congruence. }
  induction Hsorted as [|y s Hs IH Hy].
  - by apply elem_of_nil in Ha.
  - apply elem_of_cons in Ha as [->|Ha]; apply elem_of_cons in Hb as [->|Hb].
    + done.
    + apply list_elem_of_split in Hb as [l2 [l3 ->]]. by exists [], l2, l3.
    + rewrite Forall_forall in Hy. apply Hy in Ha.
      unfold not_above in Ha. congruence.
    + destruct (IH Ha Hb) as [l1 [l2 [l3 ->]]]. by exists (y :: l1), l2, l3.
Qed.

Lemma list_sort_precedes (l s : list A) (a b : A) :
  Forall P l →
  list_sort lt l = Ok s → a ∈ l → b ∈ l → lt a b = Ok true →
  precedes a b s.
Proof.
  intros HP Hs Ha Hb Hlt. apply list_sort_spec in Hs as [Hperm Hsorted];
    [| done].
  apply sorted_precedes; try done; by rewrite Hperm.
Qed.

End Sorting.

(** A sort that ends with a list has rearranged its input, whatever the
    comparison answers. *)
Lemma insort_Permutation {A : Type} (lt : A → A → result bool) (x : A)
    (s r : list A) :
  insort lt x s = Ok r → Permutation r (x :: s).
Proof.
  revert r. induction s as [|y s IH]; simpl; intros r Hr.
  - by injection Hr as <-.
  - destruct (lt y x) as [[|]|e]; simpl in Hr; [| | done].
    + destruct (insort lt x s) as [r'|e]; simpl in Hr; [| done].
      injection Hr as <-. rewrite (IH r' eq_refl). apply perm_swap.
    + by injection Hr as <-.
Qed.

Lemma list_sort_Permutation {A : Type} (lt : A → A → result bool)
    (l s : list A) :
  list_sort lt l = Ok s → Permutation s l.
Proof.
  revert s. induction l as [|x l IH]; simpl; intros s Hs.
  - by injection Hs as <-.
  - destruct (list_sort lt l) as [s'|e]; simpl in Hs; [| done].
    apply insort_Permutation in Hs. by rewrite Hs, (IH s' eq_refl).
Qed.

Lemma precedes_map {A B : Type} (f : A → B) (a b : A) (l : list A) :
  precedes a b l → precedes (f a) (f b) (List.map f l).
Proof.
  intros [l1 [l2 [l3 ->]]].
  exists (List.map f l1), (List.map f l2), (List.map f l3).
  by rewrite map_app, map_cons, map_app, map_cons.
Qed.

Lemma list_comprehension_Ok {A B : Type} (f : A → B) (xs : list A) :
  list_comprehension (λ x, Ok (f x)) xs = Ok (List.map f xs).
Proof. induction xs as [|x xs IH]; simpl; [done |]. by rewrite IH. Qed.

Lemma list_comprehension_elem {A B : Type} (f : A → result B) (xs : list A)
    (ys : list B) (x : A) :
  list_comprehension f xs = Ok ys → x ∈ xs → ∃ y, f x = Ok y ∧ y ∈ ys.
Proof.
  revert ys. induction xs as [|x' xs IH]; simpl; intros ys Hys Hx.
  - by apply elem_of_nil in Hx.
  - destruct (f x') as [y'|e] eqn:Hfx; simpl in Hys; [| done].
    destruct (list_comprehension f xs) as [ys'|e]; simpl in Hys; [| done].
    injection Hys as <-. apply elem_of_cons in Hx as [->|Hx].
    + exists y'. split; [done | by left].
    + destruct (IH ys' eq_refl Hx) as [y [Hy Hin]].
      exists y. split; [done | by right].
Qed.

(** ** The order of Python values *)

Lemma string_compare_lt_trans (a b c : string) :
  String.compare a b = Lt → String.compare b c = Lt → String.compare a c = Lt.
Proof.
  revert b c. induction a as [|x a IH]; intros [|y b] [|z c]; simpl; try done.
  unfold Ascii.compare.
  destruct (N.compare_spec (N_of_ascii x) (N_of_ascii y)) as [Hxy|Hxy|Hxy];
    destruct (N.compare_spec (N_of_ascii y) (N_of_ascii z)) as [Hyz|Hyz|Hyz];
    try done; intros Hab Hbc.
  - rewrite Hxy, Hyz, N.compare_refl. by apply (IH b c).
  - rewrite Hxy. by apply N.compare_lt_iff in Hyz as ->.
  - rewrite <- Hyz. by apply N.compare_lt_iff in Hxy as ->.
  - assert (N_of_ascii x < N_of_ascii z)%N as Hxz by lia.
    by apply N.compare_lt_iff in Hxz as ->.
Qed.

Lemma string_ltb_asym (a b : string) :
  String.ltb a b = true → String.ltb b a = false.
Proof.
  unfold String.ltb. rewrite (String.compare_antisym a b).
  by destruct (String.compare b a).
Qed.

Lemma string_not_above_trans (a b c : string) :
  String.ltb b a = false → String.ltb c b = false → String.ltb c a = false.
Proof.
  unfold String.ltb. intros Hba Hcb.
  destruct (String.compare c a) eqn:Hca; try done. exfalso.
  rewrite (String.compare_antisym b a) in Hba.
  rewrite (String.compare_antisym c b) in Hcb.
  rewrite (String.compare_antisym c a) in Hca.
  destruct (String.compare a b) eqn:Hab; simpl in Hba; try done.
  - apply String.compare_eq_iff in Hab as ->.
    by destruct (String.compare b c).
  - destruct (String.compare b c) eqn:Hbc; simpl in Hcb; try done.
    + apply String.compare_eq_iff in Hbc as ->. by rewrite Hab in Hca.
    + by rewrite (string_compare_lt_trans a b c Hab Hbc) in Hca.
Qed.

Lemma str_lt_asym (a b : string) : str_lt a b = Ok true → str_lt b a = Ok false.
Proof.
  unfold str_lt. intros [= Hlt]. by rewrite (string_ltb_asym a b Hlt).
Qed.

Lemma str_lt_not_above_trans (a b c : string) :
  True → not_above str_lt a b → not_above str_lt b c → not_above str_lt a c.
Proof.
  unfold not_above, str_lt. intros _ [= Hab] [= Hbc].
  by rewrite (string_not_above_trans a b c Hab Hbc).
Qed.

(** *** Floats: [<] is the order of the numbers *)

(** The comparison of two dyadic numbers does not depend on the exponent
    they are brought to. *)
Lemma dyadic_ltb_at (k m e m' e' : Z) :
  k ≤ e → k ≤ e' →
  dyadic_ltb m e m' e' = (m * 2 ^ (e - k) <? m' * 2 ^ (e' - k)).
Proof.
  intros He He'. unfold dyadic_ltb. cbn zeta.
  set (k0 := Z.min e e').
  assert (k ≤ k0 ∧ k0 ≤ e ∧ k0 ≤ e') as (Hk & Hk0 & Hk0') by lia.
  replace (e - k) with ((e - k0) + (k0 - k)) by lia.
  replace (e' - k) with ((e' - k0) + (k0 - k)) by lia.
  rewrite !Z.pow_add_r by lia.
  assert (0 < 2 ^ (k0 - k)) as Hpos by (apply Z.pow_pos_nonneg; lia).
  rewrite !Z.mul_assoc.
  destruct (Z.ltb_spec (m * 2 ^ (e - k0)) (m' * 2 ^ (e' - k0))) as [Hlt|Hge];
    symmetry.
  - apply Z.ltb_lt. by apply Z.mul_lt_mono_pos_r.
  - apply Z.ltb_ge. by apply Z.mul_le_mono_pos_r.
Qed.

Lemma float_lt_asym (x y : pyfloat) :
  float_lt x y = true → float_lt y x = false.
Proof.
  destruct x as [|s|s m e], y as [|s'|s' m' e']; simpl; try done.
  - by destruct s, s'.
  - by destruct s.
  - by destruct s'.
  - rewrite (dyadic_ltb_at (Z.min e e') _ e _ e'),
      (dyadic_ltb_at (Z.min e e') _ e' _ e) by lia.
    lia.
Qed.

Lemma float_lt_not_above_trans (x y z : pyfloat) :
  y ≠ NaN →
  float_lt y x = false → float_lt z y = false → float_lt z x = false.
Proof.
  intros Hy.
  destruct x as [|sx|sx mx ex], y as [|sy|sy my ey], z as [|sz|sz mz ez];
    simpl; try done;
    try (by destruct sx, sy, sz); try (by destruct sx, sy);
    try (by destruct sy, sz); try (by destruct sx, sz).
  set (k := Z.min ex (Z.min ey ez)).
  rewrite (dyadic_ltb_at k _ ey _ ex), (dyadic_ltb_at k _ ez _ ey),
    (dyadic_ltb_at k _ ez _ ex) by lia.
  lia.
Qed.

Lemma signed_abs (z : Z) : signed (z <? 0) (Z.abs_N z) = z.
Proof. unfold signed. destruct (Z.ltb_spec z 0); lia. Qed.

(** Between two [int] the order is that of the numbers they are as
    floats. *)
Lemma float_lt_of_int (x y : Z) :
  float_lt (float_of_int x) (float_of_int y) = (x <? y).
Proof.
  unfold float_of_int. cbn [float_lt].
  rewrite (dyadic_ltb_at 0 _ 0 _ 0), !signed_abs by lia.
  by rewrite Z.sub_0_r, Z.pow_0_r, !Z.mul_1_r.
Qed.

(** *** Attribute values *)

Lemma Ok_inj {A : Type} (a b : A) : Ok a = Ok b → a = b.
Proof. by intros [= ->]. Qed.

Lemma py_lt_asym (a b : PyValue) : py_lt a b = Ok true → py_lt b a = Ok false.
Proof.
  destruct a, b; cbn [py_lt]; try done; intros [= Hlt]; f_equal.
  - lia.
  - by apply float_lt_asym.
  - by apply float_lt_asym.
  - by apply float_lt_asym.
  - by apply string_ltb_asym.
  - unfold date_ltb in *. lia.
Qed.

(** Where no value is not-a-number, [not a > b] is transitive. *)
Lemma py_lt_not_above_trans (a b c : PyValue) :
  b ≠ PyFloat NaN →
  not_above py_lt a b → not_above py_lt b c → not_above py_lt a c.
Proof.
  unfold not_above. intros Hb.
  destruct a as [|xa|fa|sa|ya ma da], b as [|xb|fb|sb|yb mb db];
    cbn [py_lt]; try done;
    destruct c as [|xc|fc|sc|yc mc dc]; cbn [py_lt]; try done;
    rewrite <- ?float_lt_of_int;
    intros Hab%Ok_inj Hbc%Ok_inj; f_equal;
    try (eapply float_lt_not_above_trans; [| exact Hab | exact Hbc];
         unfold float_of_int; congruence).
  - by apply (string_not_above_trans _ sb).
  - unfold date_ltb in *. lia.
Qed.

(** ** ISO dates keep the order of the calendar *)

Lemma digit_code (n : Z) : Z.of_N (N_of_ascii (digit n)) = 48 + n mod 10.
Proof.
  unfold digit.
  pose proof (Z.mod_pos_bound n 10 ltac:(lia)) as Hmod.
  set (k := (48 + Z.to_nat (n mod 10))%nat).
  assert (k < 256)%nat as Hk by lia.
  assert (N_of_ascii (ascii_of_nat k) = N.of_nat k) as ->.
  { apply N2Nat.inj. rewrite Nat2N.id. by apply nat_ascii_embedding. }
  lia.
Qed.

Lemma digit_compare (n m : Z) :
  Ascii.compare (digit n) (digit m) = (n mod 10 ?= m mod 10).
Proof.
  unfold Ascii.compare. rewrite <- N2Z.inj_compare, !digit_code.
  apply Z.add_compare_mono_l.
Qed.

Lemma zfill_compare (w : nat) (n m : Z) (acc acc' : string) :
  0 ≤ n < 10 ^ Z.of_nat w → 0 ≤ m < 10 ^ Z.of_nat w →
  String.compare (zfill w n acc) (zfill w m acc')
  = match n ?= m with
    | Eq => String.compare acc acc'
    | c => c
    end.
Proof.
  revert n m acc acc'. induction w as [|w IH]; intros n m acc acc' Hn Hm.
  - simpl in *. assert (n = 0) as -> by lia. assert (m = 0) as -> by lia.
    done.
  - rewrite Nat2Z.inj_succ, Z.pow_succ_r in Hn, Hm by lia.
    cbn [zfill]. rewrite IH by (split; [apply Z.div_pos | apply Z.div_lt_upper_bound]; lia).
    pose proof (Z.div_mod n 10 ltac:(lia)) as Hdn.
    pose proof (Z.div_mod m 10 ltac:(lia)) as Hdm.
    pose proof (Z.mod_pos_bound n 10 ltac:(lia)) as Hmn.
    pose proof (Z.mod_pos_bound m 10 ltac:(lia)) as Hmm.
    cbn [String.compare]. rewrite digit_compare.
    destruct (Z.compare_spec (n / 10) (m / 10)) as [Hq|Hq|Hq].
    + destruct (Z.compare_spec (n mod 10) (m mod 10)) as [Hr|Hr|Hr].
      * assert (n = m) as -> by lia. by rewrite Z.compare_refl.
      * assert (n < m) as Hlt by lia. by apply Z.compare_lt_iff in Hlt as ->.
      * assert (n > m) as Hgt by lia. by rewrite Hgt.
    + assert (n < m) as Hlt by lia. by apply Z.compare_lt_iff in Hlt as ->.
    + assert (n > m) as Hgt by lia. by rewrite Hgt.
Qed.

Lemma iso_date_ltb (y m d y' m' d' : Z) :
  iso_dated (PyDate y m d) → iso_dated (PyDate y' m' d') →
  String.ltb (iso_date y m d) (iso_date y' m' d') = date_ltb y m d y' m' d'.
Proof.
  simpl. intros [Hy [Hm Hd]] [Hy' [Hm' Hd']].
  unfold String.ltb, iso_date, date_ltb.
  rewrite zfill_compare by (simpl; lia).
  destruct (Z.compare_spec y y') as [Hcy|Hcy|Hcy].
  - cbn [String.compare]. change (Ascii.compare "-" "-") with Eq. cbn iota.
    rewrite zfill_compare by (simpl; lia).
    destruct (Z.compare_spec m m') as [Hcm|Hcm|Hcm].
    + cbn [String.compare]. change (Ascii.compare "-" "-") with Eq. cbn iota.
      rewrite zfill_compare by (simpl; lia).
      destruct (Z.compare_spec d d') as [Hcd|Hcd|Hcd]; simpl; lia.
    + lia.
    + lia.
  - lia.
  - lia.
Qed.

(** ** The attribute-value list *)

Section FeatureModel.
Context {host : Host} {Layer Feature : Type} `{Countable Layer}
  {Layer_MapLayer : MapLayer Layer Feature}.
Variable project : list Layer.

(** C7, amended.  When the enumeration succeeds, the returned list holds
    the distinct values of the chosen field as the host reports them,
    each rendered once (as its ISO-8601 text for a date or time field, by
    the default string conversion otherwise), and of two values a < b
    the text of a stands before the text of b, provided that, for a date
    or time field, a and b are dates of the calendar with a year of four
    digits (others have no ISO text) and that no value of the field is
    the float not-a-number (which [<] does not order). *)
Theorem enumeration_sorted_and_rendered (d : Dialog) (texts : list string) :
  generate_feature_model project d = Ok texts →
  ∃ layer field,
    accepted_layer project d = Some layer
    ∧ accepted_field d = Some field
    ∧ let values :=
        uniqueValues layer
          (indexFromName (layer_fields layer) (field_name field)) in
      (∃ rendered,
         list_comprehension (render field) values = Ok rendered
         ∧ Permutation texts rendered)
      ∧ ∀ a b,
          a ∈ values → b ∈ values →
          PyFloat NaN ∉ values →
          well_dated field a → well_dated field b →
          py_lt a b = Ok true →
          ∃ ta tb,
            render field a = Ok ta ∧ render field b = Ok tb
            ∧ precedes ta tb texts.
Proof.
  unfold generate_feature_model. intros Hgen.
  destruct (accepted_layer project d) as [layer|]; [| done].
  destruct (bool_decide (type_of layer = QgsRasterLayer)); [done |].
  destruct (accepted_field d) as [field|]; [| done].
  exists layer, field. split; [done |]. split; [done |].
  unfold render, well_dated. cbn zeta.
  set (values := uniqueValues layer _) in *.
  destruct (isDateOrTime field) eqn:Hdate.
  - destruct (list_comprehension toString_ISODate values) as [isos|e] eqn:Hisos;
      simpl in Hgen; [| done].
    split.
    + exists isos. split; [done |]. by apply list_sort_Permutation in Hgen.
    + intros a b Ha Hb _ Hwa Hwb Hlt.
      specialize (Hwa eq_refl). specialize (Hwb eq_refl).
      destruct a as [| | | |y m dd]; try done.
      destruct b as [| | | |y' m' dd']; try done.
      destruct (list_comprehension_elem _ _ _ _ Hisos Ha) as [ta [Hta Hina]].
      destruct (list_comprehension_elem _ _ _ _ Hisos Hb) as [tb [Htb Hinb]].
      exists ta, tb. split; [done |]. split; [done |].
      apply (list_sort_precedes str_lt (λ _, True) str_lt_asym
               str_lt_not_above_trans isos); try done.
      { by apply Forall_forall. }
      pose proof Hwa as [Hy _]. pose proof Hwb as [Hy' _].
      simpl in Hta, Htb.
      assert (((0 <=? y) && (y <=? 9999)) = true) as Hry by lia.
      assert (((0 <=? y') && (y' <=? 9999)) = true) as Hry' by lia.
      rewrite Hry in Hta. rewrite Hry' in Htb.
      injection Hta as <-. injection Htb as <-.
      unfold str_lt. rewrite (iso_date_ltb _ _ _ _ _ _ Hwa Hwb).
      simpl in Hlt. by injection Hlt as ->.
  - destruct (list_sort py_lt values) as [sorted|e] eqn:Hsorted;
      simpl in Hgen; [| done].
    injection Hgen as <-. split.
    + exists (List.map py_str values). split.
      * apply list_comprehension_Ok.
      * apply Permutation_map. by apply list_sort_Permutation in Hsorted.
    + intros a b Ha Hb Hnan _ _ Hlt. exists (py_str a), (py_str b).
      split; [done |]. split; [done |]. apply precedes_map.
      apply (list_sort_precedes py_lt (λ v, v ≠ PyFloat NaN) py_lt_asym
               py_lt_not_above_trans values); try done.
      apply Forall_forall. by intros v Hv ->.
Qed.

End FeatureModel.

(** ** Further properties of the generators and of a session *)

Section Further.
Context {host : Host} {Layer Feature : Type} `{Countable Layer}
  {Layer_MapLayer : MapLayer Layer Feature}.
Variable project : list Layer.

(** [generate_field_model] returns for every layer, and every field of the
    model it returns is a field of the layer of a supported type, re-tagged
    to its category and otherwise unchanged. *)
Theorem field_model_holds_retagged_fields (self : Config) (layer : Layer) :
  ∃ model,
    generate_field_model self layer = Ok model
    ∧ ∀ g, g ∈ model →
           ∃ f, f ∈ layer_fields layer
                ∧ supported_type (field_type f) = true ∧ g = retagged f.
Proof.
  rewrite generate_field_model_Ok. eexists. split; [done |].
  intros g Hg. destruct (bool_decide _); [| by apply elem_of_nil in Hg].
  apply appends_sound in Hg as [Hg|Hg]; [by apply elem_of_nil in Hg |].
  by apply candidates_supported in Hg.
Qed.

(** Without a field filter, the field model of a vector layer that has a
    feature lists exactly the layer's fields of a supported type. *)
Theorem unfiltered_field_model_lists_supported_fields (self : Config)
    (layer : Layer) (f : QgsField) :
  field_matches self = None →
  type_of layer = QgsVectorLayer →
  getFeatures layer ≠ [] →
  f ∈ layer_fields layer →
  ∃ model,
    generate_field_model self layer = Ok model
    ∧ (appears f model ↔ supported_type (field_type f) = true).
Proof.
  intros Hfm Hvec Hfeat Hf. pose proof (layer_fields_NoDup layer) as Hnd.
  rewrite generate_field_model_Ok, Hfm.
  rewrite bool_decide_true by (by rewrite Hvec).
  eexists. split; [done |].
  rewrite appears_iff_candidate, elem_of_candidates_None by done. split.
  - intros [f' [Hf' [_ [Hsup Hre]]]].
    by apply (retagged_inj_on _ _ _ Hnd Hf Hf') in Hre as <-.
  - intros Hsup. by exists f.
Qed.

(** A type string that is neither empty nor recognised makes
    [generate_layer_model], and with it the constructor, raise KeyError as
    soon as the project holds a layer. *)
Theorem unrecognised_type_raises_KeyError (self : Config) (s : string) :
  layer_type self = LayerTypeStr s → s ≠ EmptyString → ¬ recognised s →
  project ≠ [] →
  generate_layer_model project self = Raise KeyError.
Proof.
  intros Hs Hne Hrec Hproject. unfold generate_layer_model.
  assert (filter_layer self = Raise KeyError) as Hfilter.
  { unfold filter_layer. rewrite Hs. cbn zeta.
    destruct (String.eqb (lower s) "vector") eqn:Hv.
    - apply String.eqb_eq in Hv. destruct Hrec. by left.
    - destruct (String.eqb (lower s) "raster") eqn:Hr; [| done].
      apply String.eqb_eq in Hr. destruct Hrec. by right. }
  rewrite Hs. cbn [len_layer_type].
  assert ((String.length s =? 0)%nat = false) as -> by (by destruct s).
  cbn [negb].
  rewrite (set_comprehension_ext _ (λ _, Raise KeyError))
    by (intros l; by rewrite Hfilter).
  rewrite set_comprehension_Raise; [done |].
  destruct project as [|x ls]; [done |].
  intros Hnil. apply elements_empty_inv in Hnil.
  assert (x ∈ (list_to_set (x :: ls) : gset Layer)) as Hx by set_solver.
  rewrite Hnil in Hx. set_solver.
Qed.

(** The geometry comprehension of line 278 under the default [set()]:
    no [wkbType] equals it. *)
Lemma geom_type_layers_default (ls : list Layer) :
  (list_to_set
     (List.filter
        (λ layer, bool_decide (type_of layer ≠ QgsRasterLayer)
                  && wkbType_eq (wkbType layer) GeometryTypeDefault)
        ls) : gset Layer) = ∅.
Proof.
  induction ls as [|x ls IH]; [done |].
  cbn [List.filter wkbType_eq]. by rewrite andb_false_r.
Qed.

(** With name substrings as the only filter, the layer selector offers
    exactly the project layers whose name contains one of them, letter
    case apart. *)
Theorem name_filter_alone_shows_matching_layers (self : Config)
    (keys : list string) :
  layer_matches self = LayerMatchesDict keys → keys ≠ [] →
  layer_type self = LayerTypeDefault →
  geometry_type self = GeometryTypeDefault →
  ∃ excluded,
    generate_layer_model project self = Ok excluded
    ∧ ∀ l, l ∈ shown project excluded ↔ l ∈ project ∧ matches_name keys l.
Proof.
  intros Hm Hkeys Ht Hg. unfold generate_layer_model.
  rewrite Ht, Hg.
  cbn [geometry_type_ne_0 geometry_type_eq_set len_layer_type].
  change (negb (0 =? 0)%nat) with false. cbn [mbind result_bind].
  assert ((0 =? len_layer_matches (layer_matches self))%nat = false) as ->.
  { rewrite Hm. simpl. by destruct keys. }
  cbn [andb]. rewrite geom_type_layers_default.
  eexists. split; [done |]. intros l.
  pose proof (name_layers_spec (layer_matches self) (list_to_set project) l)
    as Hname.
  rewrite (elem_of_list_to_set l project), Hm in Hname.
  cbn [layer_matches_keys] in Hname.
  apply shown_allowed.
  rewrite elem_of_intersection, !elem_of_union, elem_of_list_to_set.
  rewrite Hm, Hname. set_solver.
Qed.

(** [on_selected_layer] on the placeholder entry. *)
Lemma on_selected_layer_placeholder (d : Dialog) :
  layer_wdgt_index d = 0%nat →
  on_selected_layer project d
  = (Ok tt,
     set_feature_wdgt []
       (set_field_wdgt [] EmptyString
          (set_selection_button_enabled false
             (set_ok_button_enabled false d)))).
Proof. intros Hidx. run_handler. by rewrite Hidx. Qed.

Lemma idle_on_selected_field (d : Dialog) :
  idle_invariant d → idle_invariant (on_selected_field project d).2.
Proof.
  unfold idle_invariant. rewrite on_selected_field_unfold. cbn [snd].
  intros Hidle Hidx.
  assert (layer_wdgt_index d = 0%nat) as Hidx'
    by (by destruct (generate_feature_model project d)).
  rewrite no_layer_selected_fails in *
    by (unfold accepted_layer, currentLayer; by rewrite Hidx').
  cbn. destruct (Hidle Hidx') as [Hf [_ Hc]]. done.
Qed.

Lemma idle_on_selected_layer (d : Dialog) :
  idle_invariant (on_selected_layer project d).2.
Proof.
  intros Hidx.
  pose proof (on_selected_layer_layer_state project d) as Hstate.
  unfold layer_state in Hstate. injection Hstate as _ Hidx' _.
  rewrite Hidx in Hidx'. symmetry in Hidx'.
  by rewrite (on_selected_layer_placeholder d Hidx').
Qed.

(** [on_reset_layer] where the platform announces the program's changes
    of index: the layer selector goes back to the placeholder, and with
    it the field selector and the value list are emptied. *)
Lemma on_reset_layer_idle (d : Dialog) :
  setCurrentIndex_emits = true →
  idle_invariant d →
  idle_invariant (on_reset_layer project d).2.
Proof.
  intros Hemits Hidle. rewrite on_reset_layer_unfold, Hemits. cbn [snd].
  destruct (layer_wdgt_index d =? 0)%nat eqn:Hidx; cbn zeta.
  - apply Nat.eqb_eq in Hidx. destruct (Hidle Hidx) as [Hf [Hv Hc]].
    by rewrite Hc.
  - rewrite (on_selected_layer_placeholder (set_layer_wdgt_index 0 d)) by done.
    cbn. by intros _.
Qed.

(** An event that does not cancel keeps the field selector and the value
    list empty while the layer selector stands on the placeholder. *)
Lemma step_idle_invariant (d : Dialog) (e : event) :
  idle_invariant d →
  dialog_result (step project d e) ≠ Some Rejected →
  idle_invariant (step project d e).
Proof.
  intros Hidle Hopen.
  destruct (step_unrejected project d e Hopen)
    as [->|[(i & Hi & ->)|[(name & Hname & ->)|[(_ & b & ->)| ->]]]];
    try done.
  - apply idle_on_selected_layer.
  - apply idle_on_selected_field.
    intros Hidx. cbn in Hidx. destruct (Hidle Hidx) as [Hf [Hv Hc]].
    rewrite Hf in Hname. cbn in Hname.
    destruct Hname as [->|?]; [| lia]. cbn. done.
  - intros Hidx. cbn in Hidx. destruct (Hidle Hidx) as [Hf [Hv Hc]].
    cbn. by rewrite Hv.
Qed.

Lemma init_idle_invariant (self : Config) (d0 : Dialog) :
  init project self = Ok d0 → idle_invariant d0.
Proof.
  unfold init. destruct (generate_layer_model project self); [| done].
  intros [= <-]. by intros _.
Qed.

Lemma run_idle_invariant (self : Config) (d0 : Dialog)
    (events : list event) :
  init project self = Ok d0 →
  dialog_result (run project d0 events) ≠ Some Rejected →
  idle_invariant (run project d0 events).
Proof.
  intros Hinit. apply (run_unrejected project idle_invariant).
  - apply step_idle_invariant.
  - by apply (init_idle_invariant self).
Qed.

(** Pressing Cancel in an open session ends it as rejected, with the
    layer selector on its placeholder and the field selector on its blank
    entry: [accepted_layer] returns None.  What else is reset is the
    platform's doing: where the program's change of index is announced to
    the handlers, the field selector and the value list are emptied and
    the other two accessors return None as well; where it is not, the
    fields and the check marks stay as they were. *)
Theorem cancel_resets_the_selection (self : Config) (d0 : Dialog)
    (events : list event) :
  init project self = Ok d0 →
  dialog_result (run project d0 events) = None →
  let d := run project d0 (events ++ [CancelClicked]) in
  dialog_result d = Some Rejected
  ∧ accepted_layer project d = None
  ∧ field_wdgt_currentField d = EmptyString
  ∧ (setCurrentIndex_emits = true →
     accepted_field d = None ∧ accepted_features d = None)
  ∧ (setCurrentIndex_emits = false →
     field_wdgt_fields d = field_wdgt_fields (run project d0 events)
     ∧ accepted_features d = accepted_features (run project d0 events)).
Proof.
  intros Hinit Hopen d. subst d.
  unfold run. rewrite fold_left_app. fold (run project d0 events).
  assert (idle_invariant (run project d0 events)) as Hidle
    by (apply (run_idle_invariant self); [done | by rewrite Hopen]).
  set (d1 := run project d0 events) in *.
  cbn [fold_left]. unfold step. rewrite Hopen, emit_unfold.
  change ((Ok (), ?x).2) with x. unfold dispatch.
  unfold mbind, M_bind, reject, modify. cbn beta iota.
  pose proof (on_reset_layer_result project
                (set_dialog_result (Some Rejected) d1)) as Hres.
  destruct (on_reset_layer_selectors project
              (set_dialog_result (Some Rejected) d1)) as [Hidx Hcur].
  split; [done |]. split.
  { unfold accepted_layer, currentLayer. by rewrite Hidx. }
  split; [done |]. split.
  - intros Hemits.
    pose proof (on_reset_layer_idle
                  (set_dialog_result (Some Rejected) d1) Hemits Hidle)
      as Hidle'.
    destruct (Hidle' Hidx) as [Hf [Hv Hc]].
    unfold accepted_field, accepted_features. by rewrite Hf, Hv, Hc.
  - intros Hquiet.
    by rewrite (on_reset_layer_quiet project _ Hquiet).
Qed.

End Further.

(** ** The layer model, filter by filter *)

Section LayerFilters.
Context {Layer Feature : Type} `{Countable Layer}
  {Layer_MapLayer : MapLayer Layer Feature}.
Variable project : list Layer.

Lemma elem_of_geom_type_layers (g : geometry_type_arg) (layers : gset Layer)
    (l : Layer) :
  l ∈ (list_to_set
         (List.filter
            (λ layer, bool_decide (type_of layer ≠ QgsRasterLayer)
                      && wkbType_eq (wkbType layer) g)
            (elements layers)) : gset Layer)
  ↔ l ∈ layers ∧ type_of l ≠ QgsRasterLayer
    ∧ wkbType_eq (wkbType l) g = true.
Proof.
  rewrite elem_of_list_to_set, list_elem_of_In, filter_In,
    <- list_elem_of_In, elem_of_elements, andb_true_iff, bool_decide_eq_true.
  done.
Qed.

(** [generate_layer_model] once the type comprehension of lines 274-275
    has returned: a project layer is shown when line 286 allows all, or
    when one of the three sets holds it. *)
Lemma generate_layer_model_shown (self : Config) (type_layers : gset Layer) :
  (if negb (len_layer_type (layer_type self) =? 0)%nat
   then set_comprehension
          (λ layer, t ← filter_layer self;
                    Ok (bool_decide (type_of layer = t)))
          (elements (list_to_set project : gset Layer))
   else Ok ∅) = Ok type_layers →
  ∃ excluded,
    generate_layer_model project self = Ok excluded
    ∧ ∀ l, l ∈ shown project excluded
           ↔ l ∈ project
             ∧ ((len_layer_type (layer_type self)
                 =? len_layer_matches (layer_matches self))%nat
                && geometry_type_eq_set (geometry_type self) = true
                ∨ l ∈ type_layers
                ∨ (geometry_type_ne_0 (geometry_type self) = true
                   ∧ type_of l ≠ QgsRasterLayer
                   ∧ wkbType_eq (wkbType l) (geometry_type self) = true)
                ∨ matches_name (layer_matches_keys (layer_matches self)) l).
Proof.
  intros Htype. unfold generate_layer_model. rewrite Htype.
  cbn [mbind result_bind].
  pose proof (name_layers_spec (layer_matches self) (list_to_set project))
    as Hname.
  destruct (_ && _) eqn:Hall.
  - eexists. split; [done |]. intros l. apply shown_allowed.
    rewrite elem_of_intersection, !elem_of_union, elem_of_list_to_set.
    split; [intros [Hl _]; split; [done | by left] | tauto].
  - eexists. split; [done |]. intros l. apply shown_allowed.
    rewrite elem_of_intersection, !elem_of_union, (Hname l).
    destruct (geometry_type_ne_0 (geometry_type self)).
    + rewrite elem_of_geom_type_layers, !elem_of_list_to_set. naive_solver.
    + rewrite elem_of_empty, !elem_of_list_to_set. naive_solver.
Qed.

(** The geometry code 0 as the only argument hides every layer: line 277
    skips the geometry comprehension, and line 286 does not take 0 for
    the default. *)
Theorem geometry_type_0_alone_excludes_every_layer (self : Config) :
  geometry_type self = GeometryTypeInt 0 →
  len_layer_type (layer_type self) = 0%nat →
  len_layer_matches (layer_matches self) = 0%nat →
  ∃ excluded,
    generate_layer_model project self = Ok excluded
    ∧ shown project excluded = ∅
    ∧ ∀ l, l ∈ excluded ↔ l ∈ project.
Proof.
  intros Hg Ht Hm.
  destruct (generate_layer_model_shown self ∅) as [excluded [Hgen Hshown]].
  { by rewrite Ht. }
  exists excluded. split; [done |].
  assert (∀ l, l ∉ shown project excluded) as Hnone.
  { intros l Hl. apply Hshown in Hl as [_ Hl].
    rewrite Hg, Ht, Hm in Hl. cbn in Hl.
    destruct Hl as [?|[Hl|[[? _]|[key [Hkey _]]]]]; try done.
    assert (layer_matches_keys (layer_matches self) = []) as Hkeys
      by (destruct (layer_matches self) as [|[|]]; done).
    rewrite Hkeys in Hkey. by apply elem_of_nil in Hkey. }
  split; [set_solver |].
  intros l. unfold generate_layer_model in Hgen. rewrite Ht in Hgen.
  cbn [Nat.eqb negb mbind result_bind] in Hgen.
  destruct (_ && _) in Hgen; injection Hgen as <-;
    specialize (Hnone l); unfold shown in Hnone;
    rewrite !elem_of_difference, elem_of_list_to_set in *; tauto.
Qed.

(** A recognised type string as the only filter: the layer selector
    offers exactly the project layers of that class. *)
Theorem type_filter_alone_shows_that_class (self : Config) (s : string) :
  layer_type self = LayerTypeStr s → recognised s →
  geometry_type self = GeometryTypeDefault →
  len_layer_matches (layer_matches self) = 0%nat →
  ∃ excluded,
    generate_layer_model project self = Ok excluded
    ∧ ∀ l, l ∈ shown project excluded ↔ l ∈ project ∧ matches_type s l.
Proof.
  intros Hs Hrec Hg Hm.
  destruct (type_layers_recognised self s
              (elements (list_to_set project : gset Layer)) Hs Hrec)
    as [tl [Htl Hin]].
  destruct (generate_layer_model_shown self tl) as [excluded [Hgen Hshown]].
  { rewrite Htl, Hs. cbn [len_layer_type].
    by rewrite (recognised_nonempty s Hrec). }
  exists excluded. split; [done |]. intros l. rewrite Hshown.
  rewrite Hs, Hg, Hm. cbn [len_layer_type geometry_type_ne_0 wkbType_eq].
  pose proof (recognised_nonempty s Hrec) as Hlen.
  rewrite Hlen. cbn [andb].
  rewrite Hin, elem_of_elements, elem_of_list_to_set.
  assert (layer_matches_keys (layer_matches self) = []) as ->
    by (destruct (layer_matches self) as [|[|]]; done).
  unfold matches_name. split.
  - intros [Hl [?|[[_ ?]|[[_ [_ ?]]|[key [Hkey _]]]]]]; try done.
    by apply elem_of_nil in Hkey.
  - intros [Hl Ht]. split; [done |]. right. by left.
Qed.

(** A geometry code other than 0 as the only filter: the layer selector
    offers exactly the vector layers of that geometry type. *)
Theorem geometry_filter_alone_shows_that_geometry (self : Config) (g : Z) :
  geometry_type self = GeometryTypeInt g → g ≠ 0 →
  len_layer_type (layer_type self) = 0%nat →
  len_layer_matches (layer_matches self) = 0%nat →
  ∃ excluded,
    generate_layer_model project self = Ok excluded
    ∧ ∀ l, l ∈ shown project excluded ↔ l ∈ project ∧ matches_geometry g l.
Proof.
  intros Hg Hg0 Ht Hm.
  destruct (generate_layer_model_shown self ∅) as [excluded [Hgen Hshown]].
  { by rewrite Ht. }
  exists excluded. split; [done |]. intros l. rewrite Hshown.
  rewrite Hg, Ht, Hm.
  cbn [geometry_type_ne_0 geometry_type_eq_set wkbType_eq Nat.eqb andb].
  assert (layer_matches_keys (layer_matches self) = []) as ->
    by (destruct (layer_matches self) as [|[|]]; done).
  unfold matches_name, matches_geometry. rewrite Z.eqb_eq. split.
  - intros [Hl [?|[?|[[_ [Hv Hw]]|[key [Hkey _]]]]]]; try done.
    + split; [done |]. split; [| done]. by destruct (type_of l).
    + by apply elem_of_nil in Hkey.
  - intros [Hl [Hv Hw]]. split; [done |]. right. right. left.
    split; [by destruct (g =? 0) eqn:E; [apply Z.eqb_eq in E |] |].
    split; [by rewrite Hv | done].
Qed.

End LayerFilters.

Section EmptyProject.
Context {Layer Feature : Type} `{Countable Layer}
  {Layer_MapLayer : MapLayer Layer Feature}.

(** On an empty project the construction succeeds with nothing to
    exclude, whatever the arguments: an unrecognised type string is never
    looked up. *)
Theorem empty_project_excludes_nothing (self : Config) :
  generate_layer_model ([] : list Layer) self = Ok ∅.
Proof.
  unfold generate_layer_model.
  assert (elements (list_to_set [] : gset Layer) = []) as Helems
    by apply elements_empty.
  rewrite Helems. cbn [set_comprehension List.filter].
  destruct (negb (len_layer_type _ =? 0)%nat); cbn [mbind result_bind];
    destruct (_ && _); f_equal; set_solver.
Qed.

End EmptyProject.

(** ** The field model: order, repetition, features *)

Lemma appends_NoDup (cs : list QgsField) (acc : QgsFields) :
  NoDup (field_name <$> acc) →
  NoDup (field_name <$> fold_left QgsFields_append cs acc).
Proof.
  revert acc. induction cs as [|c cs IH]; intros acc Hnd; simpl; [done |].
  apply IH.
  destruct (decide (field_name c ∈ field_name <$> acc)) as [Hheld|Hfresh].
  - by rewrite QgsFields_append_held.
  - rewrite QgsFields_append_fresh, fmap_app by done.
    apply NoDup_app. split; [done |]. split.
    + intros n Hn Hc. apply list_elem_of_singleton in Hc as ->. done.
    + apply NoDup_singleton.
Qed.

(** Appending the same field once per feature leaves what one append
    leaves. *)
Lemma per_feature_appends {Feature : Type} (field : QgsField)
    (features : list Feature) (acc : QgsFields) :
  features ≠ [] →
  fold_left QgsFields_append (flat_map (λ _, candidate field) features) acc
  = fold_left QgsFields_append (candidate field) acc.
Proof.
  intros Hne. unfold candidate. destruct (supported_type _).
  - destruct features as [|ft features]; [done |]. clear Hne. simpl.
    induction features as [|ft' features IH]; simpl; [done |].
    rewrite QgsFields_append_held by apply QgsFields_append_name. exact IH.
  - clear Hne. induction features as [|ft features IH]; simpl; [done |].
    exact IH.
Qed.

(** With one feature or with many, the loops leave the same fields. *)
Lemma candidates_any_features {F1 F2 : Type} (fm : option (list string))
    (fields : QgsFields) (fs1 : list F1) (fs2 : list F2) (acc : QgsFields) :
  fs1 ≠ [] → fs2 ≠ [] →
  fold_left QgsFields_append (candidates fm fields fs1) acc
  = fold_left QgsFields_append (candidates fm fields fs2) acc.
Proof.
  intros H1 H2.
  assert (∀ fields acc,
    fold_left QgsFields_append
      (flat_map (λ field, flat_map (λ _, candidate field) fs1) fields) acc
    = fold_left QgsFields_append
        (flat_map (λ field, flat_map (λ _, candidate field) fs2) fields) acc)
    as Hfields.
  { clear fields acc. induction fields as [|f fields IH]; intros acc;
      simpl; [done |].
    by rewrite !fold_left_app, !per_feature_appends, IH. }
  destruct fm as [keys|]; [| apply Hfields]. unfold candidates.
  revert acc. induction keys as [|key keys IH]; intros acc; simpl; [done |].
  rewrite !fold_left_app, IH. f_equal.
  clear IH. revert acc. induction fields as [|f fields IH]; intros acc;
    simpl; [done |].
  rewrite !fold_left_app, IH. f_equal.
  destruct (String.eqb _ _); [| done]. by rewrite !per_feature_appends.
Qed.

(** Without a filter the loops leave, after what was there, the supported
    fields in the order of the layer. *)
Lemma unfiltered_appends {Feature : Type} (fields : QgsFields)
    (features : list Feature) (acc : QgsFields) :
  features ≠ [] →
  NoDup (field_name <$> fields) →
  (∀ f, f ∈ fields → field_name f ∉ field_name <$> acc) →
  fold_left QgsFields_append
    (flat_map (λ field, flat_map (λ _, candidate field) features) fields) acc
  = acc ++ (retagged <$>
              List.filter (λ f, supported_type (field_type f)) fields).
Proof.
  intros Hne. revert acc.
  induction fields as [|f fields IH]; intros acc Hnd Hacc; simpl.
  - by rewrite app_nil_r.
  - apply NoDup_cons in Hnd as [Hf Hnd].
    rewrite fold_left_app, per_feature_appends by done.
    unfold candidate. destruct (supported_type (field_type f)); simpl.
    + rewrite (QgsFields_append_fresh acc (retagged f))
        by (apply (Hacc f); by left).
      rewrite IH; [by rewrite <- app_assoc | done |].
      intros f' Hf'. rewrite fmap_app, elem_of_app. intros [Hin|Hin].
      * by apply (Hacc f'); [right |].
      * simpl in Hin. apply list_elem_of_singleton in Hin.
        apply Hf. rewrite <- Hin. by apply list_elem_of_fmap_2.
    + apply IH; [done |]. intros f' Hf'. apply Hacc. by right.
Qed.

Section FieldOrder.
Context {Layer Feature : Type} `{Countable Layer}
  {Layer_MapLayer : MapLayer Layer Feature}.

(** Without a field filter, the field model of a vector layer that has a
    feature is the list of the layer's fields of a supported type, in the
    layer's order, each re-tagged to its category. *)
Theorem unfiltered_field_model_in_layer_order (self : Config)
    (layer : Layer) :
  field_matches self = None →
  type_of layer = QgsVectorLayer →
  getFeatures layer ≠ [] →
  generate_field_model self layer
  = Ok (retagged <$>
          List.filter (λ f, supported_type (field_type f))
            (layer_fields layer)).
Proof.
  intros Hfm Hvec Hfeat. rewrite generate_field_model_Ok, Hfm.
  rewrite bool_decide_true by (by rewrite Hvec).
  unfold candidates. rewrite unfiltered_appends; try done.
  - apply layer_fields_NoDup.
  - intros f _. apply not_elem_of_nil.
Qed.

(** However many features the layer has, and under any field filter, the
    field model lists no name twice: the appends repeated per feature are
    rejected by the container. *)
Theorem field_model_names_are_distinct (self : Config) (layer : Layer) :
  ∃ model,
    generate_field_model self layer = Ok model
    ∧ NoDup (field_name <$> model).
Proof.
  rewrite generate_field_model_Ok. eexists. split; [done |].
  destruct (bool_decide _); [| apply NoDup_nil_2].
  apply appends_NoDup, NoDup_nil_2.
Qed.

(** The field model depends on the features of the layer only through
    their presence: two layers of the same class and fields that both have
    a feature get the same model, whatever the features hold. *)
Theorem field_model_ignores_feature_values (self : Config)
    (layer1 layer2 : Layer) :
  type_of layer1 = type_of layer2 →
  layer_fields layer1 = layer_fields layer2 →
  getFeatures layer1 ≠ [] → getFeatures layer2 ≠ [] →
  generate_field_model self layer1 = generate_field_model self layer2.
Proof.
  intros Htype Hfields H1 H2. rewrite !generate_field_model_Ok.
  rewrite Htype, Hfields.
  by rewrite (candidates_any_features _ _ (getFeatures layer1)
                (getFeatures layer2)).
Qed.

End FieldOrder.

(** ** Sessions: what the selectors, the value list and the accessors hold *)

Lemma fmap_unchecked_texts (texts : list string) :
  ((λ t : string, (t, false)) <$> texts).*1 = texts.
Proof. induction texts as [|t texts IH]; [done |]. simpl. f_equal. exact IH. Qed.

Lemma fmap_mark_texts (b : bool) (items : list (string * bool)) :
  ((λ it : string * bool, (it.1, b)) <$> items).*1 = items.*1.
Proof. induction items as [|it items IH]; [done |]. simpl. f_equal. exact IH. Qed.

(** The field the container returns for the index of a name bears that
    name. *)
Lemma QgsFields_field_indexFromName (fs : QgsFields) (n : string)
    (f : QgsField) :
  QgsFields_field fs (indexFromName fs n) = Ok f → f ∈ fs ∧ field_name f = n.
Proof.
  unfold QgsFields_field.
  destruct (indexFromName fs n <? 0) eqn:Hneg; [done |].
  apply Z.ltb_ge in Hneg. revert Hneg.
  induction fs as [|x fs IH]; simpl.
  - lia.
  - destruct (String.eqb (field_name x) n) eqn:Heq.
    + intros _ [= <-]. apply String.eqb_eq in Heq. split; [by left | done].
    + destruct (indexFromName fs n <? 0) eqn:Hneg'; [lia |].
      apply Z.ltb_ge in Hneg'. intros _.
      replace (Z.to_nat (indexFromName fs n + 1))
        with (S (Z.to_nat (indexFromName fs n))) by lia.
      simpl. intros Hf. destruct (IH Hneg' Hf) as [Hin Hname].
      split; [by right | done].
Qed.

Section Sessions.
Context {host : Host} {Layer Feature : Type} `{Countable Layer}
  {Layer_MapLayer : MapLayer Layer Feature}.
Variable project : list Layer.

(** The enumeration reads the class attributes, the layer selector and
    the field selector only. *)
Lemma generate_feature_model_selection_frame (d d' : Dialog) :
  selection_frame d' = selection_frame d →
  generate_feature_model project d' = generate_feature_model project d.
Proof.
  unfold selection_frame. intros [= Ha Hi Hx Hf Hc].
  unfold generate_feature_model, accepted_layer, currentLayer,
    layer_wdgt_layers, accepted_field.
  by rewrite ?Ha, ?Hi, ?Hx, ?Hf, ?Hc.
Qed.

(** A successful enumeration had a vector layer and a field to work
    on. *)
Lemma generate_feature_model_Ok_inv (d : Dialog) (texts : list string) :
  generate_feature_model project d = Ok texts →
  ∃ layer field,
    accepted_layer project d = Some layer
    ∧ type_of layer = QgsVectorLayer
    ∧ accepted_field d = Some field.
Proof.
  unfold generate_feature_model. intros Hgen.
  destruct (accepted_layer project d) as [layer|]; [| done].
  destruct (bool_decide (type_of layer = QgsRasterLayer)) eqn:Hr; [done |].
  apply bool_decide_eq_false in Hr.
  destruct (accepted_field d) as [field|]; [| done].
  exists layer, field. split; [done |]. split; [| done].
  by destruct (type_of layer).
Qed.

(** [on_selected_layer] on a real layer, in one step. *)
Lemma on_selected_layer_real (d : Dialog) (layer : Layer) :
  currentLayer project d = Some layer →
  ∃ model,
    generate_field_model (attrs d) layer = Ok model
    ∧ on_selected_layer project d
      = (Ok tt,
         set_selection_button_enabled false
           (set_feature_wdgt []
              (set_field_wdgt model EmptyString
                 (set_ok_button_enabled true d)))).
Proof.
  intros Hlayer.
  assert (∃ i, layer_wdgt_index d = S i) as [i Hidx].
  { unfold currentLayer in Hlayer. destruct (layer_wdgt_index d); [done |].
    eauto. }
  eexists. split; [apply generate_field_model_Ok |].
  run_handler. rewrite Hidx. cbn.
  change (currentLayer project (set_ok_button_enabled true d))
    with (currentLayer project d).
  rewrite Hlayer, generate_field_model_Ok. reflexivity.
Qed.

(** Selecting a real layer never fails: the confirm button is enabled,
    the field selector is refilled with the field model of that layer and
    stands on its blank entry, the value list is emptied and the bulk
    buttons are disabled, whatever was selected before. *)
Theorem layer_selection_refills_and_clears (d : Dialog) (layer : Layer) :
  currentLayer project d = Some layer →
  ∃ model,
    generate_field_model (attrs d) layer = Ok model
    ∧ (on_selected_layer project d).1 = Ok tt
    ∧ let d' := (on_selected_layer project d).2 in
      field_wdgt_fields d' = model
      ∧ field_wdgt_currentField d' = EmptyString
      ∧ feature_wdgt d' = []
      ∧ selection_button_enabled d' = false
      ∧ ok_button_enabled d' = true
      ∧ accepted_layer project d' = Some layer
      ∧ accepted_features d' = None.
Proof.
  intros Hlayer.
  destruct (on_selected_layer_real d layer Hlayer) as (model & Hmodel & ->).
  exists model. cbn. repeat split; try done.
Qed.

(** *** The value list follows the enumeration *)

Lemma on_selected_field_values (d : Dialog) :
  values_invariant project (on_selected_field project d).2.
Proof.
  rewrite on_selected_field_unfold.
  destruct (generate_feature_model project d) as [texts|e] eqn:Hgen;
    split; cbn; intros Hsel; try done.
  exists texts. split; [| apply fmap_unchecked_texts].
  rewrite <- Hgen. by apply generate_feature_model_selection_frame.
Qed.

Lemma on_selected_layer_values (d : Dialog) :
  layer_wdgt_index d = 0%nat ∨ is_Some (currentLayer project d) →
  values_invariant project (on_selected_layer project d).2.
Proof.
  intros [Hidx | [layer Hlayer]].
  - rewrite (on_selected_layer_placeholder project d Hidx). by split.
  - destruct (on_selected_layer_real d layer Hlayer) as (model & _ & ->).
    by split.
Qed.

Lemma values_invariant_frame (d d' : Dialog) :
  selection_frame d' = selection_frame d →
  (feature_wdgt d').*1 = (feature_wdgt d).*1 →
  selection_button_enabled d' = selection_button_enabled d →
  values_invariant project d → values_invariant project d'.
Proof.
  intros Hframe Hf Hs [Hoff Hon]. split; rewrite Hs.
  - intros Hsel. rewrite (Hoff Hsel) in Hf. by apply fmap_nil_inv in Hf.
  - intros Hsel. destruct (Hon Hsel) as (texts & Hgen & Htexts).
    exists texts. split; [| by rewrite Hf].
    by rewrite (generate_feature_model_selection_frame d d' Hframe).
Qed.

Lemma step_values_invariant (d : Dialog) (e : event) :
  values_invariant project d →
  dialog_result (step project d e) ≠ Some Rejected →
  values_invariant project (step project d e).
Proof.
  intros Hinv Hopen.
  destruct (step_unrejected project d e Hopen)
    as [->|[(i & Hi & ->)|[(name & _ & ->)|[(_ & b & ->)| ->]]]];
    try done.
  - apply on_selected_layer_values.
    destruct i as [|i]; [by left | right].
    unfold currentLayer. cbn.
    change (layer_wdgt_layers project (set_layer_wdgt_index (S i) d))
      with (layer_wdgt_layers project d).
    apply lookup_lt_is_Some. lia.
  - apply on_selected_field_values.
  - apply (values_invariant_frame d); [done | | done | done].
    cbn. apply fmap_mark_texts.
Qed.

Lemma init_unfold (self : Config) (d0 : Dialog) :
  init project self = Ok d0 →
  ∃ excluded,
    generate_layer_model project self = Ok excluded
    ∧ d0 = mkDialog self (elements excluded) 0 [] EmptyString [] false false
             None.
Proof.
  unfold init. destruct (generate_layer_model project self) as [excluded|];
    [| done].
  intros [= <-]. by exists excluded.
Qed.

Lemma init_values_invariant (self : Config) (d0 : Dialog) :
  init project self = Ok d0 → values_invariant project d0.
Proof. intros (excluded & _ & ->)%init_unfold. by split. Qed.

Lemma run_values_invariant (self : Config) (d0 : Dialog)
    (events : list event) :
  init project self = Ok d0 →
  dialog_result (run project d0 events) ≠ Some Rejected →
  values_invariant project (run project d0 events).
Proof.
  intros Hinit. apply (run_unrejected project (values_invariant project)).
  - apply step_values_invariant.
  - by apply (init_values_invariant self).
Qed.

Lemma checked_sublist (items : list (string * bool)) :
  sublist (List.filter snd items).*1 items.*1.
Proof.
  induction items as [|[t b] items IH]; simpl; [constructor |].
  destruct b; simpl; by constructor.
Qed.

(** As long as a session is not cancelled, the value list and the bulk
    buttons go together: while the buttons are disabled the list is
    empty, and while they are enabled the list shows, in order, the texts
    the enumeration gives for the layer and field now selected. *)
Theorem value_list_shows_the_enumeration (self : Config) (d0 : Dialog)
    (events : list event) :
  init project self = Ok d0 →
  let d := run project d0 events in
  dialog_result d ≠ Some Rejected →
  (selection_button_enabled d = false → feature_wdgt d = [])
  ∧ (selection_button_enabled d = true →
     ∃ texts, generate_feature_model project d = Ok texts
              ∧ (feature_wdgt d).*1 = texts).
Proof.
  intros Hinit d Hopen. by apply (run_values_invariant self).
Qed.

(** What [accepted_features] returns in a session that was not cancelled
    is never an empty list, and it is a selection, in order, of the texts
    enumerated for the layer and the field the other two accessors
    return. *)
Theorem accepted_features_are_enumerated (self : Config) (d0 : Dialog)
    (events : list event) (chosen : list string) :
  init project self = Ok d0 →
  let d := run project d0 events in
  dialog_result d ≠ Some Rejected →
  accepted_features d = Some chosen →
  chosen ≠ []
  ∧ ∃ layer field texts,
      accepted_layer project d = Some layer
      ∧ accepted_field d = Some field
      ∧ generate_feature_model project d = Ok texts
      ∧ sublist chosen texts.
Proof.
  intros Hinit d Hopen Hacc.
  assert (values_invariant project d) as [Hoff Hon]
    by (by apply (run_values_invariant self)).
  unfold accepted_features in Hacc. cbn zeta in Hacc.
  destruct (0 <? _) eqn:Hlen; [| done]. injection Hacc as <-.
  apply Z.ltb_lt in Hlen.
  assert (feature_wdgt d ≠ []) as Hne.
  { intros Hnil. rewrite Hnil in Hlen. simpl in Hlen. lia. }
  destruct (selection_button_enabled d) eqn:Hsel;
    [| by specialize (Hoff eq_refl)].
  destruct (Hon eq_refl) as (texts & Hgen & Htexts).
  destruct (generate_feature_model_Ok_inv d texts Hgen)
    as (layer & field & Hl & _ & Hf).
  split.
  - intros Hnil. rewrite Hnil in Hlen. simpl in Hlen. lia.
  - exists layer, field, texts. repeat split; try done.
    rewrite <- Htexts. apply checked_sublist.
Qed.

(** *** The field selector follows the layer *)

Lemma fields_invariant_frame (d d' : Dialog) :
  attrs d' = attrs d →
  inverted_layer_model d' = inverted_layer_model d →
  layer_wdgt_index d' = layer_wdgt_index d →
  field_wdgt_fields d' = field_wdgt_fields d →
  fields_invariant project d → fields_invariant project d'.
Proof.
  intros Ha Hi Hx Hf.
  unfold fields_invariant, currentLayer, layer_wdgt_layers.
  by rewrite Ha, Hi, Hx, Hf.
Qed.

Lemma on_selected_field_fields (d : Dialog) :
  fields_invariant project d →
  fields_invariant project (on_selected_field project d).2.
Proof.
  rewrite on_selected_field_unfold. cbn [snd].
  apply fields_invariant_frame;
    by destruct (generate_feature_model project d).
Qed.

Lemma on_selected_layer_fields (d : Dialog) :
  layer_wdgt_index d = 0%nat ∨ is_Some (currentLayer project d) →
  fields_invariant project (on_selected_layer project d).2.
Proof.
  intros [Hidx | [layer Hlayer]].
  - rewrite (on_selected_layer_placeholder project d Hidx).
    unfold fields_invariant, currentLayer. cbn. by rewrite Hidx.
  - destruct (on_selected_layer_real d layer Hlayer) as (model & Hmodel & ->).
    unfold fields_invariant. cbn [snd].
    change (currentLayer project
              (set_selection_button_enabled false
                 (set_feature_wdgt []
                    (set_field_wdgt model EmptyString
                       (set_ok_button_enabled true d)))))
      with (currentLayer project d).
    by rewrite Hlayer.
Qed.

Lemma on_reset_layer_fields (d : Dialog) :
  setCurrentIndex_emits = true →
  fields_invariant project d →
  fields_invariant project (on_reset_layer project d).2.
Proof.
  intros Hemits Hinv. rewrite on_reset_layer_unfold, Hemits. cbn zeta.
  destruct (layer_wdgt_index d =? 0)%nat eqn:Hidx.
  - destruct (String.eqb (field_wdgt_currentField d) EmptyString);
      [done |].
    apply on_selected_field_fields. by apply (fields_invariant_frame d).
  - rewrite (on_selected_layer_placeholder project
               (set_layer_wdgt_index 0 d) eq_refl).
    cbn. done.
Qed.

Lemma step_fields_invariant (d : Dialog) (e : event) :
  fields_invariant project d →
  dialog_result (step project d e) ≠ Some Rejected →
  fields_invariant project (step project d e).
Proof.
  intros Hinv Hopen.
  destruct (step_unrejected project d e Hopen)
    as [->|[(i & Hi & ->)|[(name & _ & ->)|[(_ & b & ->)| ->]]]];
    try done.
  - apply on_selected_layer_fields.
    destruct i as [|i]; [by left | right].
    unfold currentLayer. cbn.
    change (layer_wdgt_layers project (set_layer_wdgt_index (S i) d))
      with (layer_wdgt_layers project d).
    apply lookup_lt_is_Some. lia.
  - apply on_selected_field_fields. by apply (fields_invariant_frame d).
Qed.

(** Where the platform announces the program's changes of index, also the
    events that cancel keep the field selector in step with the layer. *)
Lemma step_fields_invariant_announced (d : Dialog) (e : event) :
  setCurrentIndex_emits = true →
  fields_invariant project d → fields_invariant project (step project d e).
Proof.
  intros Hemits Hinv. unfold step.
  destruct (dialog_result d) as [r|] eqn:Hres; [done |].
  rewrite emit_unfold. change ((Ok (), ?x).2) with x.
  assert (fields_invariant project
            (on_reset_layer project
               (set_dialog_result (Some Rejected) d)).2) as Hreset.
  { apply on_reset_layer_fields; [done |].
    by apply (fields_invariant_frame d). }
  destruct e as [i|name| | | | |key]; unfold dispatch.
  - destruct (i <=? _)%nat eqn:Hi; [| done].
    apply Nat.leb_le in Hi.
    unfold mbind, M_bind, modify. cbn beta iota.
    apply on_selected_layer_fields.
    destruct i as [|i]; [by left | right].
    unfold currentLayer. cbn.
    change (layer_wdgt_layers project (set_layer_wdgt_index (S i) d))
      with (layer_wdgt_layers project d).
    apply lookup_lt_is_Some. lia.
  - destruct (_ || _); [| done].
    unfold mbind, M_bind, modify. cbn beta iota.
    apply on_selected_field_fields. by apply (fields_invariant_frame d).
  - destruct (selection_button_enabled d); [| done].
    by apply (fields_invariant_frame d).
  - destruct (selection_button_enabled d); [| done].
    by apply (fields_invariant_frame d).
  - destruct (ok_button_enabled d); [| done].
    by apply (fields_invariant_frame d).
  - exact Hreset.
  - unfold keyPressEvent. destruct key; cbn; first [done | exact Hreset].
Qed.

Lemma init_fields_invariant (self : Config) (d0 : Dialog) :
  init project self = Ok d0 → fields_invariant project d0.
Proof. intros (excluded & _ & ->)%init_unfold. done. Qed.

Lemma run_fields_invariant (self : Config) (d0 : Dialog)
    (events : list event) :
  init project self = Ok d0 →
  dialog_result (run project d0 events) ≠ Some Rejected
  ∨ setCurrentIndex_emits = true →
  fields_invariant project (run project d0 events).
Proof.
  intros Hinit [Hopen|Hemits].
  - revert Hopen. apply (run_unrejected project (fields_invariant project)).
    + apply step_fields_invariant.
    + by apply (init_fields_invariant self).
  - apply init_fields_invariant in Hinit. clear self. revert d0 Hinit.
    induction events as [|e events IH]; intros d Hinv; [done |].
    simpl. by apply IH, step_fields_invariant_announced.
Qed.

(** *** What the constructor stored is never written *)

Lemma on_selected_field_construction (d : Dialog) :
  construction_frame (on_selected_field project d).2 = construction_frame d.
Proof.
  rewrite on_selected_field_unfold. cbn [snd].
  by destruct (generate_feature_model project d).
Qed.

Lemma on_selected_layer_construction (d : Dialog) :
  construction_frame (on_selected_layer project d).2 = construction_frame d.
Proof.
  run_handler. destruct (layer_wdgt_index d =? 0)%nat eqn:Hidx; cbn.
  - reflexivity.
  - destruct (match currentLayer project _ with
              | Some layer => _
              | None => _
              end); reflexivity.
Qed.

Lemma on_reset_layer_construction (d : Dialog) :
  construction_frame (on_reset_layer project d).2 = construction_frame d.
Proof.
  rewrite on_reset_layer_unfold. cbn zeta. cbn [snd].
  assert (construction_frame
            (if (layer_wdgt_index d =? 0)%nat then d
             else if setCurrentIndex_emits
                  then (on_selected_layer project
                          (set_layer_wdgt_index 0 d)).2
                  else set_layer_wdgt_index 0 d)
          = construction_frame d) as Hd1.
  { destruct (layer_wdgt_index d =? 0)%nat; [done |].
    destruct setCurrentIndex_emits; [| done].
    by rewrite on_selected_layer_construction. }
  destruct (String.eqb _ EmptyString); [done |].
  destruct setCurrentIndex_emits; [| done].
  by rewrite on_selected_field_construction.
Qed.

Lemma step_construction (d : Dialog) (e : event) :
  construction_frame (step project d e) = construction_frame d.
Proof.
  unfold step. destruct (dialog_result d); [done |].
  rewrite emit_unfold. change ((Ok (), ?x).2) with x.
  destruct e as [i|name| | | | |key]; unfold dispatch.
  - destruct (i <=? _)%nat; [| done].
    unfold mbind, M_bind, modify. cbn beta iota.
    by rewrite on_selected_layer_construction.
  - destruct (_ || _); [| done].
    unfold mbind, M_bind, modify. cbn beta iota.
    by rewrite on_selected_field_construction.
  - by destruct (selection_button_enabled d).
  - by destruct (selection_button_enabled d).
  - by destruct (ok_button_enabled d).
  - unfold mbind, M_bind, reject, modify. cbn beta iota.
    exact (on_reset_layer_construction (set_dialog_result (Some Rejected) d)).
  - unfold keyPressEvent. destruct key; cbn; try done.
    unfold mbind, M_bind, reject, modify. cbn beta iota.
    exact (on_reset_layer_construction (set_dialog_result (Some Rejected) d)).
Qed.

Lemma run_construction (events : list event) (d : Dialog) :
  construction_frame (run project d events) = construction_frame d.
Proof.
  revert d. induction events as [|e events IH]; intros d; [done |].
  simpl. by rewrite IH, step_construction.
Qed.

Lemma run_init_construction (self : Config) (d0 : Dialog)
    (excluded : gset Layer) (events : list event) :
  generate_layer_model project self = Ok excluded →
  init project self = Ok d0 →
  attrs (run project d0 events) = self
  ∧ inverted_layer_model (run project d0 events) = elements excluded.
Proof.
  intros Hgen Hinit. pose proof (run_construction events d0) as Hrun.
  unfold construction_frame in Hrun. injection Hrun as -> ->.
  unfold init in Hinit. rewrite Hgen in Hinit. by injection Hinit as <-.
Qed.

(** A member of a field model, traced back to the layer. *)
Lemma field_model_member (self : Config) (layer : Layer) (model : QgsFields)
    (g : QgsField) :
  generate_field_model self layer = Ok model → g ∈ model →
  type_of layer = QgsVectorLayer ∧ getFeatures layer ≠ []
  ∧ ∃ f, f ∈ layer_fields layer
         ∧ supported_type (field_type f) = true ∧ g = retagged f
         ∧ ∀ keys, field_matches self = Some keys →
                   ∃ key, key ∈ keys ∧ equal_ci key (field_name f).
Proof.
  rewrite generate_field_model_Ok. intros [= <-] Hg.
  destruct (bool_decide _) eqn:Hvec; [| by apply elem_of_nil in Hg].
  apply bool_decide_eq_true in Hvec.
  apply appends_sound in Hg as [Hg|Hg]; [by apply elem_of_nil in Hg |].
  split; [by destruct (type_of layer) |].
  destruct (field_matches self) as [keys|].
  - apply elem_of_candidates_Some in Hg
      as (key & f & Hkey & Hf & Heq & Hne & Hs & ->).
    split; [done |]. exists f. repeat split; try done.
    intros keys' [= <-]. by exists key.
  - apply elem_of_candidates_None in Hg as (f & Hf & Hne & Hs & ->).
    split; [done |]. exists f. repeat split; try done.
Qed.

(** As long as a session is not cancelled, the field selector holds the
    field model of the layer now selected, and nothing while the layer
    selector stands on its placeholder. *)
Theorem field_selector_holds_the_field_model (self : Config) (d0 : Dialog)
    (events : list event) :
  init project self = Ok d0 →
  let d := run project d0 events in
  dialog_result d ≠ Some Rejected →
  match accepted_layer project d with
  | Some layer => generate_field_model self layer = Ok (field_wdgt_fields d)
  | None => field_wdgt_fields d = []
  end.
Proof.
  intros Hinit d Hopen.
  destruct (init_unfold self d0 Hinit) as (excluded & Hgen & _).
  destruct (run_init_construction self d0 excluded events Hgen Hinit)
    as [Hattrs _].
  fold d in Hattrs. rewrite <- Hattrs.
  apply (run_fields_invariant self); [done | by left].
Qed.

(** What [accepted_field] returns, when not None, is the re-tagged copy
    of a field of the layer [accepted_layer] returns: a vector layer with
    a feature, the field of a supported type and, under a field filter,
    of a name equal to one of the keys, letter case apart.  This holds in
    every session that was not cancelled, and in a cancelled one too
    where the platform announces the program's changes of index. *)
Theorem accepted_field_is_of_the_accepted_layer (self : Config)
    (d0 : Dialog) (events : list event) (field : QgsField) :
  init project self = Ok d0 →
  let d := run project d0 events in
  dialog_result d ≠ Some Rejected ∨ setCurrentIndex_emits = true →
  accepted_field d = Some field →
  ∃ layer f,
    accepted_layer project d = Some layer
    ∧ type_of layer = QgsVectorLayer
    ∧ getFeatures layer ≠ []
    ∧ f ∈ layer_fields layer
    ∧ supported_type (field_type f) = true
    ∧ field = retagged f
    ∧ ∀ keys, field_matches self = Some keys →
              ∃ key, key ∈ keys ∧ equal_ci key (field_name f).
Proof.
  intros Hinit d Hcase Hacc.
  destruct (init_unfold self d0 Hinit) as (excluded & Hgen & _).
  destruct (run_init_construction self d0 excluded events Hgen Hinit)
    as [Hattrs _].
  fold d in Hattrs.
  assert (fields_invariant project d) as Hinv
    by (by apply (run_fields_invariant self)).
  unfold accepted_field in Hacc. cbn zeta in Hacc.
  destruct (QgsFields_field _ _) as [f'|] eqn:Hfield; [| done].
  injection Hacc as ->.
  apply QgsFields_field_indexFromName in Hfield as [Hin _].
  unfold fields_invariant in Hinv. unfold accepted_layer.
  destruct (currentLayer project d) as [layer|].
  - rewrite Hattrs in Hinv.
    destruct (field_model_member self layer _ field Hinv Hin)
      as (Hvec & Hne & f & Hf & Hs & Hre & Hkeys).
    by exists layer, f.
  - rewrite Hinv in Hin. by apply elem_of_nil in Hin.
Qed.

(** Throughout a session the layer selector offers, after its
    placeholder, exactly the project layers outside the exclusion set
    computed at construction; [accepted_layer] returns one of them or
    None. *)
Theorem layer_selector_offers_the_shown_layers (self : Config)
    (d0 : Dialog) (events : list event) :
  init project self = Ok d0 →
  ∃ excluded,
    generate_layer_model project self = Ok excluded
    ∧ let d := run project d0 events in
      (∀ l, l ∈ layer_wdgt_layers project d ↔ l ∈ shown project excluded)
      ∧ ∀ layer, accepted_layer project d = Some layer →
                 layer ∈ shown project excluded.
Proof.
  intros Hinit.
  destruct (init_unfold self d0 Hinit) as (excluded & Hgen & _).
  exists excluded. split; [done |]. intros d.
  destruct (run_init_construction self d0 excluded events Hgen Hinit)
    as [_ Hinv].
  fold d in Hinv.
  assert (layer_wdgt_layers project d
          = List.filter (λ l, bool_decide (l ∉ excluded)) project) as Hlayers.
  { unfold layer_wdgt_layers. rewrite Hinv. apply filter_ext. intros l.
    apply bool_decide_ext. by rewrite elem_of_elements. }
  assert (∀ l, l ∈ layer_wdgt_layers project d ↔ l ∈ shown project excluded)
    as Hshown.
  { intros l. rewrite Hlayers. unfold shown.
    rewrite list_elem_of_In, filter_In, <- list_elem_of_In,
      bool_decide_eq_true, elem_of_difference, elem_of_list_to_set.
    done. }
  split; [done |].
  intros layer Hlayer. apply Hshown.
  unfold accepted_layer, currentLayer in Hlayer.
  destruct (layer_wdgt_index d) as [|i]; [done |].
  by apply list_elem_of_lookup_2 in Hlayer.
Qed.

(** *** Keys, bulk buttons, picked entries *)

(** The Return key accepts the dialog also while the layer selector
    stands on its placeholder, where the confirm button is disabled and a
    click on it does nothing: the session then ends as accepted with the
    three accessors returning None. *)
Theorem return_key_accepts_without_a_layer (self : Config) (d0 : Dialog)
    (events : list event) :
  init project self = Ok d0 →
  let d := run project d0 events in
  dialog_result d = None →
  layer_wdgt_index d = 0%nat →
  ok_button_enabled d = false
  ∧ step project d OkClicked = d
  ∧ let d' := step project d (KeyPressed Key_Return) in
    dialog_result d' = Some Accepted
    ∧ accepted_layer project d' = None
    ∧ accepted_field d' = None
    ∧ accepted_features d' = None.
Proof.
  intros Hinit d Hopen Hidx.
  assert (session_invariant project d) as [_ Hok]
    by (apply (run_session_invariant project self); [done |];
        subst d; by rewrite Hopen).
  assert (idle_invariant d) as Hidle
    by (apply (run_idle_invariant project self); [done |];
        subst d; by rewrite Hopen).
  destruct (Hidle Hidx) as (Hf & Hv & Hc).
  rewrite Hidx in Hok. simpl in Hok. clearbody d.
  split; [done |]. unfold step. rewrite Hopen, !emit_unfold.
  unfold dispatch. rewrite Hok. split; [done |].
  change (keyPressEvent project Key_Return d)
    with (Ok tt : result unit, set_dialog_result (Some Accepted) d).
  unfold accepted_layer, currentLayer, accepted_field, accepted_features.
  cbn. by rewrite Hidx, Hf, Hv, Hc.
Qed.

Lemma checked_all (items : list (string * bool)) :
  (List.filter snd ((λ it : string * bool, (it.1, true)) <$> items)).*1
  = items.*1.
Proof.
  induction items as [|it items IH]; [done |]. simpl. f_equal. exact IH.
Qed.

Lemma checked_none (items : list (string * bool)) :
  List.filter snd ((λ it : string * bool, (it.1, false)) <$> items) = [].
Proof. induction items as [|it items IH]; [done |]. simpl. exact IH. Qed.

(** While the bulk buttons are enabled in an open session, [Yes to all]
    makes [accepted_features] return every text enumerated for the
    selected layer and field (None when there is none), and [No to all]
    makes it return None. *)
Theorem bulk_buttons_check_all_or_none (self : Config) (d0 : Dialog)
    (events : list event) :
  init project self = Ok d0 →
  let d := run project d0 events in
  dialog_result d = None →
  selection_button_enabled d = true →
  ∃ texts,
    generate_feature_model project d = Ok texts
    ∧ accepted_features (step project d YesToAllClicked)
      = match texts with [] => None | _ => Some texts end
    ∧ accepted_features (step project d NoToAllClicked) = None.
Proof.
  intros Hinit d Hopen Hsel.
  assert (values_invariant project d) as [_ Hon]
    by (apply (run_values_invariant self); [done |];
        subst d; by rewrite Hopen).
  destruct (Hon Hsel) as (texts & Hgen & Htexts). clearbody d.
  exists texts. split; [done |].
  unfold step. rewrite Hopen, !emit_unfold. unfold dispatch. rewrite Hsel.
  unfold accepted_features. cbn. rewrite checked_all, checked_none, Htexts.
  split; [| done]. by destruct texts.
Qed.

(** The field of a name, in a container that lists no name twice. *)
Lemma QgsFields_field_of_name (fs : QgsFields) (f : QgsField) :
  NoDup (field_name <$> fs) → f ∈ fs →
  QgsFields_field fs (indexFromName fs (field_name f)) = Ok f.
Proof.
  intros Hnd Hin.
  assert (field_name f ∈ field_name <$> fs) as Hname
    by (by apply list_elem_of_fmap_2).
  apply indexFromName_found in Hname.
  unfold QgsFields_field.
  destruct (indexFromName fs (field_name f) <? 0) eqn:Hneg;
    [apply Z.ltb_lt in Hneg; lia |].
  destruct (fs !! Z.to_nat (indexFromName fs (field_name f)))
    as [g|] eqn:Hg.
  - assert (QgsFields_field fs (indexFromName fs (field_name f)) = Ok g)
      as Hfield by (unfold QgsFields_field; by rewrite Hneg, Hg).
    apply QgsFields_field_indexFromName in Hfield as [Hgin Hgname].
    f_equal. by apply (NoDup_names_inj fs).
  - apply lookup_ge_None in Hg.
    pose proof (indexFromName_range fs (field_name f)). lia.
Qed.

(** Picked entries are what the accessors return: after the user picks
    the layer at a position of the layer selector, [accepted_layer]
    returns that layer, and after the user picks a field of the field
    selector, [accepted_field] returns that field. *)
Theorem picked_entries_are_accepted (self : Config) (d0 : Dialog)
    (events : list event) :
  init project self = Ok d0 →
  let d := run project d0 events in
  dialog_result d = None →
  (∀ i layer,
     layer_wdgt_layers project d !! i = Some layer →
     accepted_layer project (step project d (LayerActivated (S i)))
     = Some layer)
  ∧ (∀ f,
       f ∈ field_wdgt_fields d →
       accepted_field (step project d (FieldActivated (field_name f)))
       = Some f).
Proof.
  intros Hinit d Hopen. split.
  - intros i layer Hlayer.
    assert (S i ≤ List.length (layer_wdgt_layers project d))%nat as Hi
      by (apply lookup_lt_Some in Hlayer; lia).
    unfold step. rewrite Hopen, emit_unfold. unfold dispatch.
    apply Nat.leb_le in Hi. rewrite Hi.
    unfold mbind, M_bind, modify. cbn beta iota.
    destruct (on_selected_layer_real (set_layer_wdgt_index (S i) d) layer)
      as (model & _ & ->); [done |].
    done.
  - intros f Hf.
    assert (NoDup (field_name <$> field_wdgt_fields d)) as Hnd.
    { assert (fields_invariant project d) as Hinv
        by (apply (run_fields_invariant self); [done |];
            left; subst d; by rewrite Hopen).
      unfold fields_invariant in Hinv.
      destruct (currentLayer project d) as [layer|].
      - rewrite generate_field_model_Ok in Hinv. injection Hinv as <-.
        destruct (bool_decide _); [| apply NoDup_nil_2].
        apply appends_NoDup, NoDup_nil_2.
      - rewrite Hinv. apply NoDup_nil_2. }
    assert (0 ≤ indexFromName (field_wdgt_fields d) (field_name f)) as Hidx
      by (by apply indexFromName_found, list_elem_of_fmap_2).
    unfold step. rewrite Hopen, emit_unfold. unfold dispatch.
    apply Z.leb_le in Hidx. rewrite Hidx, orb_true_r.
    unfold mbind, M_bind, modify. cbn beta iota.
    rewrite on_selected_field_unfold. cbn [snd].
    unfold accepted_field.
    destruct (generate_feature_model project _); cbn;
      by rewrite QgsFields_field_of_name.
Qed.

End Sessions.

(** ** The attribute-value list: when the enumeration fails, when it succeeds *)

Lemma insort_total {A : Type} (lt : A → A → result bool) (x : A)
    (s : list A) :
  (∀ y, y ∈ s → ∃ b, lt y x = Ok b) → ∃ r, insort lt x s = Ok r.
Proof.
  induction s as [|y s IH]; simpl; intros Hlt; [by eexists |].
  destruct (Hlt y) as [b ->]; [by left |]. simpl.
  destruct b; [| by eexists].
  destruct IH as [r ->]; [| by eexists].
  intros z Hz. apply Hlt. by right.
Qed.

(** A sort of values that compare two by two ends with a list. *)
Lemma list_sort_total {A : Type} (lt : A → A → result bool) (l : list A) :
  (∀ a b, a ∈ l → b ∈ l → ∃ r, lt a b = Ok r) → ∃ s, list_sort lt l = Ok s.
Proof.
  induction l as [|x l IH]; simpl; intros Hlt; [by eexists |].
  destruct IH as [s Hs].
  { intros a b Ha Hb. apply Hlt; by right. }
  rewrite Hs. simpl. apply insort_total. intros y Hy.
  apply Hlt; [right | by left].
  by rewrite <- (list_sort_Permutation lt l s Hs).
Qed.

Lemma list_comprehension_total {A B : Type} (f : A → result B)
    (xs : list A) :
  (∀ x, x ∈ xs → ∃ y, f x = Ok y) →
  ∃ ys, list_comprehension f xs = Ok ys ∧ length ys = length xs.
Proof.
  induction xs as [|x xs IH]; simpl; intros Hf; [by eexists |].
  destruct (Hf x) as [y ->]; [by left |]. simpl.
  destruct IH as (ys & -> & Hlen); [intros z Hz; apply Hf; by right |].
  simpl. eexists. split; [done |]. simpl. by rewrite Hlen.
Qed.

Lemma list_comprehension_fails {A B : Type} (f : A → result B)
    (xs : list A) (x : A) :
  x ∈ xs → (∃ e, f x = Raise e) → ∃ e, list_comprehension f xs = Raise e.
Proof.
  intros Hx [e Hfx]. induction xs as [|x' xs IH]; simpl.
  - by apply elem_of_nil in Hx.
  - destruct (f x') as [y|e'] eqn:Hfx'; simpl; [| by eexists].
    apply elem_of_cons in Hx as [->|Hx]; [congruence |].
    destruct (IH Hx) as [e' ->]. by eexists.
Qed.

(** NULL compares with nothing: a sort of two or more values one of which
    is NULL ends with an exception. *)
Lemma list_sort_null (values : list PyValue) :
  PyNull ∈ values → (2 ≤ length values)%nat →
  ∃ e, list_sort py_lt values = Raise e.
Proof.
  induction values as [|x l IH]; simpl; intros Hnull Hlen.
  - by apply elem_of_nil in Hnull.
  - destruct (list_sort py_lt l) as [s|e] eqn:Hs; simpl; [| by eexists].
    pose proof (list_sort_Permutation py_lt l s Hs) as Hperm.
    destruct (decide (x = PyNull)) as [->|Hx].
    + destruct s as [|y s].
      * apply Permutation_length in Hperm. simpl in Hperm. lia.
      * simpl. exists TypeError. by destruct y.
    + apply elem_of_cons in Hnull as [?|Hnull]; [done |].
      destruct l as [|y [|z l]].
      * by apply elem_of_nil in Hnull.
      * apply list_elem_of_singleton in Hnull as <-.
        simpl in Hs. injection Hs as <-. simpl. by exists TypeError.
      * destruct IH as [e He]; [done | simpl; lia |]. congruence.
Qed.

Section Enumeration.
Context {host : Host} {Layer Feature : Type} `{Countable Layer}
  {Layer_MapLayer : MapLayer Layer Feature}.
Variable project : list Layer.

(** A NULL among the distinct values of the selected field defeats the
    enumeration: for a date or time field always, for another field as
    soon as there is a second value.  The field handler then leaves the
    value list empty and the bulk buttons disabled. *)
Theorem null_value_defeats_enumeration (d : Dialog) (layer : Layer)
    (field : QgsField) :
  accepted_layer project d = Some layer →
  accepted_field d = Some field →
  let values :=
    uniqueValues layer
      (indexFromName (layer_fields layer) (field_name field)) in
  PyNull ∈ values →
  isDateOrTime field = true ∨ (2 ≤ length values)%nat →
  (∃ e, generate_feature_model project d = Raise e)
  ∧ let d' := (on_selected_field project d).2 in
    feature_wdgt d' = [] ∧ selection_button_enabled d' = false.
Proof.
  intros Hlayer Hfield values Hnull Hcase.
  assert (∃ e, generate_feature_model project d = Raise e) as [e He].
  { unfold generate_feature_model. rewrite Hlayer, Hfield.
    destruct (bool_decide _); [by eexists |]. cbn zeta. fold values.
    destruct (isDateOrTime field) eqn:Hdate.
    - destruct (list_comprehension_fails toString_ISODate values PyNull)
        as [e ->]; [done | by eexists | by eexists].
    - destruct Hcase as [? | Hlen]; [done |].
      destruct (list_sort_null values Hnull Hlen) as [e ->]. by eexists. }
  split; [by eexists |].
  rewrite on_selected_field_unfold, He. done.
Qed.

(** The enumeration succeeds on a vector layer when the distinct values
    of the selected field are dates, for a date or time field, or compare
    two by two, for another field; it then returns one text per value. *)
Theorem comparable_values_are_enumerated (d : Dialog) (layer : Layer)
    (field : QgsField) :
  accepted_layer project d = Some layer →
  type_of layer = QgsVectorLayer →
  accepted_field d = Some field →
  let values :=
    uniqueValues layer
      (indexFromName (layer_fields layer) (field_name field)) in
  enumerable field values = true →
  ∃ texts,
    generate_feature_model project d = Ok texts
    ∧ length texts = length values.
Proof.
  intros Hlayer Hvec Hfield values Henum.
  unfold generate_feature_model. rewrite Hlayer, Hfield.
  rewrite bool_decide_false by (by rewrite Hvec). cbn zeta. fold values.
  unfold enumerable in Henum. destruct (isDateOrTime field).
  - rewrite forallb_forall in Henum.
    destruct (list_comprehension_total toString_ISODate values)
      as (isos & -> & Hlen).
    { intros v Hv%list_elem_of_In. specialize (Henum v Hv).
      destruct v; try done. simpl. destruct (_ && _); by eexists. }
    simpl. destruct (list_sort_total str_lt isos) as [s Hs];
      [intros a b _ _; by eexists |].
    exists s. split; [done |].
    apply list_sort_Permutation, Permutation_length in Hs. congruence.
  - destruct (list_sort_total py_lt values) as [s Hs].
    { intros a b Ha%list_elem_of_In Hb%list_elem_of_In.
      unfold comparable in Henum. rewrite forallb_forall in Henum.
      specialize (Henum a Ha). rewrite forallb_forall in Henum.
      specialize (Henum b Hb). destruct (py_lt a b); [by eexists | done]. }
    rewrite Hs. simpl. eexists. split; [done |].
    rewrite length_map.
    by apply list_sort_Permutation, Permutation_length in Hs.
Qed.

End Enumeration.

(** ** The properties on the demo project *)

(** The constructor on the demo project. *)
Lemma demo_init : init demo_project demo_config = Ok demo_dialog.
Proof. vm_compute. reflexivity. Qed.

(** C1 as stated fails: under the filter key status, the String field
    status_code of Roads, whose name contains the key, is not in the field
    model. *)
Lemma C1_counterexample :
  ¬ C1_as_stated
      (mkConfig LayerMatchesDefault (Some ["status"%string]) None
         LayerTypeDefault GeometryTypeDefault)
      Roads.
Proof.
  intros Hclaim.
  destruct (Hclaim ["status"%string] eq_refl eq_refl) as [model [Hgen Hiff]].
  vm_compute in Hgen. injection Hgen as <-.
  destruct (Hiff (mkQgsField "status_code" 10 "String" 20 0)) as [_ Happears];
    [by left |].
  unfold appears in Happears.
  eapply (elem_of_nil (A:=string)), Happears.
  split; [reflexivity |].
  exists "status"%string. split; [by left |].
  by exists EmptyString, "_code"%string.
Qed.

(** The amended C1 on Roads under the filter key LANES. *)
Lemma field_filter_selects_equal_names_witness :
  ∃ model,
    generate_field_model
      (mkConfig LayerMatchesDefault (Some ["LANES"%string]) None
         LayerTypeDefault GeometryTypeDefault)
      Roads = Ok model
    ∧ (appears (mkQgsField "lanes" 2 "Integer" 10 0) model
       ↔ supported_type 2 = true
         ∧ ∃ key, key ∈ ["LANES"%string] ∧ equal_ci key "lanes").
Proof.
  apply (field_filter_selects_equal_names
           (mkConfig LayerMatchesDefault (Some ["LANES"%string]) None
              LayerTypeDefault GeometryTypeDefault)
           Roads ["LANES"%string] (mkQgsField "lanes" 2 "Integer" 10 0)).
  - reflexivity.
  - reflexivity.
  - simpl. discriminate.
  - simpl. right. left.
Defined.

(** C2 as stated fails: with the type raster, the geometry code 1 and the
    name substring roads, the line layer Main Roads is shown though it
    matches neither the type nor the geometry filter. *)
Lemma C2_counterexample :
  ¬ C2_as_stated demo_project
      (mkConfig (LayerMatchesDict ["roads"%string]) None None
         (LayerTypeStr "raster") (GeometryTypeInt 1)).
Proof.
  intros Hclaim.
  destruct (Hclaim "raster"%string 1 eq_refl eq_refl)
    as [excluded [Hgen Hshown]].
  vm_compute in Hgen. injection Hgen as <-.
  assert (Roads ∈ demo_project
          ∧ (matches_type "raster" Roads ∨ matches_geometry 1 Roads))
    as [_ [Htype|[_ Hgeom]]].
  { apply Hshown. refine (bool_decide_unpack _ _). vm_compute. exact I. }
  - vm_compute in Htype. discriminate.
  - vm_compute in Hgeom. discriminate.
Qed.

(** The amended C2 on the demo project. *)
Lemma type_and_geometry_filters_union_witness :
  ∃ excluded,
    generate_layer_model demo_project
      (mkConfig (LayerMatchesDict ["roads"%string]) None None
         (LayerTypeStr "Raster") (GeometryTypeInt 3)) = Ok excluded
    ∧ ∀ l, l ∈ shown demo_project excluded
           ↔ l ∈ demo_project
             ∧ (matches_type "Raster" l ∨ matches_geometry 3 l
                ∨ matches_name ["roads"%string] l).
Proof.
  apply (type_and_geometry_filters_union demo_project
           (mkConfig (LayerMatchesDict ["roads"%string]) None None
              (LayerTypeStr "Raster") (GeometryTypeInt 3))
           "Raster" 3).
  - reflexivity.
  - right. reflexivity.
  - reflexivity.
  - lia.
Defined.

(** The scenario of C4 on the demo project: Rivers is selected, then its
    field lanes, for which the host reports no value. *)
Lemma zero_values_enable_bulk_buttons_witness :
  let d := set_field_wdgt
             (field_wdgt_fields (run demo_project demo_dialog [LayerActivated 2]))
             "lanes"
             (run demo_project demo_dialog [LayerActivated 2]) in
  ∃ d', on_selected_field demo_project d = (Ok tt, d')
        ∧ feature_wdgt d' = []
        ∧ selection_button_enabled d' = true
        ∧ ok_button_enabled d' = ok_button_enabled d.
Proof.
  apply (zero_values_enable_bulk_buttons demo_project).
  vm_compute. reflexivity.
Defined.

(** C5 on the freshly built dialog, where no layer is selected. *)
Lemma failed_enumeration_is_absorbed_witness :
  ∃ d', on_selected_field demo_project demo_dialog = (Ok tt, d')
        ∧ feature_wdgt d' = []
        ∧ selection_button_enabled d' = false.
Proof.
  apply (failed_enumeration_is_absorbed demo_project demo_dialog AttributeError).
  reflexivity.
Defined.

(** C6 on the Binary field of Roads. *)
Lemma unsupported_type_never_appears_witness :
  ∃ model,
    generate_field_model demo_config Roads = Ok model
    ∧ ¬ appears (mkQgsField "shape" 12 "Binary" 0 0) model.
Proof.
  apply (unsupported_type_never_appears demo_config Roads
           (mkQgsField "shape" 12 "Binary" 0 0)).
  - simpl. do 4 right. left.
  - reflexivity.
Defined.

(** The constructor on the survey project. *)
Lemma survey_init : init survey_project demo_config = Ok survey_dialog.
Proof. vm_compute. reflexivity. Qed.

(** C7 as stated fails: the Date field sealed of Wells holds the dates
    2000-01-01 and 10000-01-01; the second has no ISO text, it is
    rendered as the empty text and stands first in the list, before the
    text of the smaller date. *)
Lemma C7_counterexample :
  ¬ C7_as_stated survey_project
      (run survey_project survey_dialog
         [LayerActivated 1; FieldActivated "sealed"]).
Proof.
  intros Hclaim.
  destruct (Hclaim [""; "2000-01-01"]%string)
    as (layer & field & _ & Hfield & _ & Horder);
    [vm_compute; reflexivity |].
  destruct layer. vm_compute in Hfield. injection Hfield as <-.
  destruct (Horder (PyDate 2000 1 1) (PyDate 10000 1 1))
    as (ta & tb & Hta & Htb & l1 & l2 & l3 & Hlist).
  - vm_compute. right. left.
  - vm_compute. left.
  - reflexivity.
  - vm_compute in Hta, Htb. injection Hta as <-. injection Htb as <-.
    destruct l1 as [|t1 [|t2 l1]]; simpl in Hlist.
    + discriminate.
    + injection Hlist as _ Hrest. by destruct l2.
    + injection Hlist as _ _ Hrest. by destruct l1.
Qed.

(** The amended C7 on the Real field of Wells: the three floats come in
    the order of the numbers, not of their texts. *)
Lemma enumeration_sorted_and_rendered_witness :
  let d := run survey_project survey_dialog
             [LayerActivated 1; FieldActivated "yield"] in
  ∃ layer field,
    accepted_layer survey_project d = Some layer
    ∧ accepted_field d = Some field
    ∧ let values :=
        uniqueValues layer
          (indexFromName (layer_fields layer) (field_name field)) in
      (∃ rendered,
         list_comprehension (render field) values = Ok rendered
         ∧ Permutation ["1.5"; "2.5"; "12.0"]%string rendered)
      ∧ ∀ a b,
          a ∈ values → b ∈ values →
          PyFloat NaN ∉ values →
          well_dated field a → well_dated field b →
          py_lt a b = Ok true →
          ∃ ta tb,
            render field a = Ok ta ∧ render field b = Ok tb
            ∧ precedes ta tb ["1.5"; "2.5"; "12.0"]%string.
Proof.
  apply (enumeration_sorted_and_rendered survey_project).
  vm_compute. reflexivity.
Defined.


(** C9 as stated fails: the four-letter type mesh with four name substrings
    raises KeyError on the demo project. *)
Lemma C9_counterexample :
  ¬ C9_as_stated demo_project
      (mkConfig (LayerMatchesDict ["a"; "b"; "c"; "d"]%string) None None
         (LayerTypeStr "mesh") GeometryTypeDefault).
Proof.
  intros Hclaim.
  specialize (Hclaim "mesh"%string ["a"; "b"; "c"; "d"]%string
                eq_refl eq_refl eq_refl eq_refl).
  vm_compute in Hclaim. discriminate.
Qed.

(** The amended C9 with the type vector and six name substrings. *)
Lemma equal_lengths_exclude_nothing_witness :
  generate_layer_model demo_project
    (mkConfig (LayerMatchesDict ["a"; "b"; "c"; "d"; "e"; "f"]%string)
       None None (LayerTypeStr "vector") GeometryTypeDefault) = Ok ∅.
Proof.
  apply (equal_lengths_exclude_nothing demo_project _ "vector"%string
           ["a"; "b"; "c"; "d"; "e"; "f"]%string).
  - reflexivity.
  - reflexivity.
  - reflexivity.
  - reflexivity.
  - right. left. reflexivity.
Defined.

(** C10 on Parcels, which has no feature. *)
Lemma featureless_layer_has_empty_field_model_witness :
  generate_field_model demo_config Parcels = Ok [].
Proof.
  apply (featureless_layer_has_empty_field_model demo_config Parcels).
  reflexivity.
Defined.

(** The unfiltered field model of Roads lists its Date field. *)
Lemma unfiltered_field_model_lists_supported_fields_witness :
  ∃ model,
    generate_field_model demo_config Roads = Ok model
    ∧ (appears (mkQgsField "built" 14 "Date" 10 0) model
       ↔ supported_type 14 = true).
Proof.
  apply (unfiltered_field_model_lists_supported_fields demo_config Roads
           (mkQgsField "built" 14 "Date" 10 0)).
  - reflexivity.
  - reflexivity.
  - simpl. discriminate.
  - simpl. do 3 right. left.
Defined.

(** The name filter roads alone on the demo project. *)
Lemma name_filter_alone_shows_matching_layers_witness :
  ∃ excluded,
    generate_layer_model demo_project
      (mkConfig (LayerMatchesDict ["roads"%string]) None None
         LayerTypeDefault GeometryTypeDefault) = Ok excluded
    ∧ ∀ l, l ∈ shown demo_project excluded
           ↔ l ∈ demo_project ∧ matches_name ["roads"%string] l.
Proof.
  apply (name_filter_alone_shows_matching_layers demo_project
           (mkConfig (LayerMatchesDict ["roads"%string]) None None
              LayerTypeDefault GeometryTypeDefault)
           ["roads"%string]).
  - reflexivity.
  - discriminate.
  - reflexivity.
  - reflexivity.
Defined.

(** Cancel after a layer, a field and all values were selected. *)
Lemma cancel_resets_the_selection_witness :
  let d := run demo_project demo_dialog
             ([LayerActivated 1; FieldActivated "built"; YesToAllClicked]
              ++ [CancelClicked]) in
  dialog_result d = Some Rejected
  ∧ accepted_layer demo_project d = None
  ∧ field_wdgt_currentField d = EmptyString
  ∧ (setCurrentIndex_emits = true →
     accepted_field d = None ∧ accepted_features d = None)
  ∧ (setCurrentIndex_emits = false →
     field_wdgt_fields d
     = field_wdgt_fields
         (run demo_project demo_dialog
            [LayerActivated 1; FieldActivated "built"; YesToAllClicked])
     ∧ accepted_features d
       = accepted_features
           (run demo_project demo_dialog
              [LayerActivated 1; FieldActivated "built"; YesToAllClicked])).
Proof.
  apply (cancel_resets_the_selection demo_project demo_config demo_dialog
           [LayerActivated 1; FieldActivated "built"; YesToAllClicked]).
  - exact demo_init.
  - vm_compute. reflexivity.
Defined.

(** A successful enumeration on the Integer field of Roads. *)
Lemma successful_enumeration_fills_value_list_witness :
  let d := set_field_wdgt
             (field_wdgt_fields (run demo_project demo_dialog [LayerActivated 1]))
             "lanes"
             (run demo_project demo_dialog [LayerActivated 1]) in
  ∃ d', on_selected_field demo_project d = (Ok tt, d')
        ∧ feature_wdgt d' = (λ t, (t, false)) <$> ["2"; "10"]%string
        ∧ selection_button_enabled d' = true.
Proof.
  apply (successful_enumeration_fills_value_list demo_project).
  vm_compute. reflexivity.
Defined.

(** The type mesh on the demo project. *)
Lemma unrecognised_type_raises_KeyError_witness :
  generate_layer_model demo_project
    (mkConfig LayerMatchesDefault None None (LayerTypeStr "Mesh")
       GeometryTypeDefault) = Raise KeyError.
Proof.
  apply (unrecognised_type_raises_KeyError demo_project _ "Mesh"%string).
  - reflexivity.
  - discriminate.
  - intros [Hvector|Hraster]; vm_compute in *; discriminate.
  - discriminate.
Defined.

(** Geometry code 0 as the only argument, on the demo project. *)
Lemma geometry_type_0_alone_excludes_every_layer_witness :
  ∃ excluded,
    generate_layer_model demo_project
      (mkConfig LayerMatchesDefault None None LayerTypeDefault
         (GeometryTypeInt 0)) = Ok excluded
    ∧ shown demo_project excluded = ∅
    ∧ ∀ l, l ∈ excluded ↔ l ∈ demo_project.
Proof.
  apply (geometry_type_0_alone_excludes_every_layer demo_project
           (mkConfig LayerMatchesDefault None None LayerTypeDefault
              (GeometryTypeInt 0))).
  - reflexivity.
  - reflexivity.
  - reflexivity.
Defined.

(** The type Raster as the only filter. *)
Lemma type_filter_alone_shows_that_class_witness :
  ∃ excluded,
    generate_layer_model demo_project
      (mkConfig LayerMatchesDefault None None (LayerTypeStr "Raster")
         GeometryTypeDefault) = Ok excluded
    ∧ ∀ l, l ∈ shown demo_project excluded
           ↔ l ∈ demo_project ∧ matches_type "Raster" l.
Proof.
  apply (type_filter_alone_shows_that_class demo_project
           (mkConfig LayerMatchesDefault None None (LayerTypeStr "Raster")
              GeometryTypeDefault) "Raster"%string).
  - reflexivity.
  - right. reflexivity.
  - reflexivity.
  - reflexivity.
Defined.

(** The line geometry as the only filter. *)
Lemma geometry_filter_alone_shows_that_geometry_witness :
  ∃ excluded,
    generate_layer_model demo_project
      (mkConfig LayerMatchesDefault None None LayerTypeDefault
         (GeometryTypeInt 2)) = Ok excluded
    ∧ ∀ l, l ∈ shown demo_project excluded
           ↔ l ∈ demo_project ∧ matches_geometry 2 l.
Proof.
  apply (geometry_filter_alone_shows_that_geometry demo_project
           (mkConfig LayerMatchesDefault None None LayerTypeDefault
              (GeometryTypeInt 2)) 2).
  - reflexivity.
  - lia.
  - reflexivity.
  - reflexivity.
Defined.

(** The unfiltered field model of Roads, in the order of the layer. *)
Lemma unfiltered_field_model_in_layer_order_witness :
  generate_field_model demo_config Roads
  = Ok (retagged <$>
          List.filter (λ f, supported_type (field_type f))
            (layer_fields Roads)).
Proof.
  apply (unfiltered_field_model_in_layer_order demo_config Roads).
  - reflexivity.
  - reflexivity.
  - simpl. discriminate.
Defined.

(** Roads and Rivers: the same fields, both with features. *)
Lemma field_model_ignores_feature_values_witness :
  generate_field_model
    (mkConfig LayerMatchesDefault (Some ["LANES"%string]) None
       LayerTypeDefault GeometryTypeDefault) Roads
  = generate_field_model
      (mkConfig LayerMatchesDefault (Some ["LANES"%string]) None
         LayerTypeDefault GeometryTypeDefault) Rivers.
Proof.
  apply (field_model_ignores_feature_values
           (mkConfig LayerMatchesDefault (Some ["LANES"%string]) None
              LayerTypeDefault GeometryTypeDefault) Roads Rivers).
  - reflexivity.
  - reflexivity.
  - simpl. discriminate.
  - simpl. discriminate.
Defined.

(** Picking Rivers after a field of Roads had been enumerated. *)
Lemma layer_selection_refills_and_clears_witness :
  let d := set_layer_wdgt_index 2
             (run demo_project demo_dialog
                [LayerActivated 1; FieldActivated "lanes"]) in
  ∃ model,
    generate_field_model (attrs d) Rivers = Ok model
    ∧ (on_selected_layer demo_project d).1 = Ok tt
    ∧ let d' := (on_selected_layer demo_project d).2 in
      field_wdgt_fields d' = model
      ∧ field_wdgt_currentField d' = EmptyString
      ∧ feature_wdgt d' = []
      ∧ selection_button_enabled d' = false
      ∧ ok_button_enabled d' = true
      ∧ accepted_layer demo_project d' = Some Rivers
      ∧ accepted_features d' = None.
Proof.
  apply (layer_selection_refills_and_clears demo_project).
  vm_compute. reflexivity.
Defined.

(** The value list after a layer and a field were picked. *)
Lemma value_list_shows_the_enumeration_witness :
  let d := run demo_project demo_dialog
             [LayerActivated 1; FieldActivated "lanes"; YesToAllClicked] in
  (selection_button_enabled d = false → feature_wdgt d = [])
  ∧ (selection_button_enabled d = true →
     ∃ texts, generate_feature_model demo_project d = Ok texts
              ∧ (feature_wdgt d).*1 = texts).
Proof.
  apply (value_list_shows_the_enumeration demo_project demo_config
           demo_dialog
           [LayerActivated 1; FieldActivated "lanes"; YesToAllClicked]).
  - exact demo_init.
  - vm_compute. discriminate.
Defined.

(** Both values of the Integer field of Roads checked. *)
Lemma accepted_features_are_enumerated_witness :
  let d := run demo_project demo_dialog
             [LayerActivated 1; FieldActivated "lanes"; YesToAllClicked] in
  ["2"; "10"]%string ≠ []
  ∧ ∃ layer field texts,
      accepted_layer demo_project d = Some layer
      ∧ accepted_field d = Some field
      ∧ generate_feature_model demo_project d = Ok texts
      ∧ sublist ["2"; "10"]%string texts.
Proof.
  apply (accepted_features_are_enumerated demo_project demo_config
           demo_dialog
           [LayerActivated 1; FieldActivated "lanes"; YesToAllClicked]
           ["2"; "10"]%string).
  - exact demo_init.
  - vm_compute. discriminate.
  - vm_compute. reflexivity.
Defined.

(** The field selector after Roads was picked. *)
Lemma field_selector_holds_the_field_model_witness :
  let d := run demo_project demo_dialog [LayerActivated 1] in
  match accepted_layer demo_project d with
  | Some layer =>
      generate_field_model demo_config layer = Ok (field_wdgt_fields d)
  | None => field_wdgt_fields d = []
  end.
Proof.
  apply (field_selector_holds_the_field_model demo_project demo_config
           demo_dialog [LayerActivated 1]).
  - exact demo_init.
  - vm_compute. discriminate.
Defined.

(** The Integer field of Roads, accepted. *)
Lemma accepted_field_is_of_the_accepted_layer_witness :
  let d := run demo_project demo_dialog
             [LayerActivated 1; FieldActivated "lanes"] in
  ∃ layer f,
    accepted_layer demo_project d = Some layer
    ∧ type_of layer = QgsVectorLayer
    ∧ getFeatures layer ≠ []
    ∧ f ∈ layer_fields layer
    ∧ supported_type (field_type f) = true
    ∧ retagged (mkQgsField "lanes" 2 "Integer" 10 0) = retagged f
    ∧ ∀ keys, field_matches demo_config = Some keys →
              ∃ key, key ∈ keys ∧ equal_ci key (field_name f).
Proof.
  apply (accepted_field_is_of_the_accepted_layer demo_project demo_config
           demo_dialog [LayerActivated 1; FieldActivated "lanes"]
           (retagged (mkQgsField "lanes" 2 "Integer" 10 0))).
  - exact demo_init.
  - left. vm_compute. discriminate.
  - vm_compute. reflexivity.
Defined.

(** The layer selector of the demo dialog. *)
Lemma layer_selector_offers_the_shown_layers_witness :
  ∃ excluded,
    generate_layer_model demo_project demo_config = Ok excluded
    ∧ let d := run demo_project demo_dialog
                 [LayerActivated 3; CancelClicked] in
      (∀ l, l ∈ layer_wdgt_layers demo_project d
            ↔ l ∈ shown demo_project excluded)
      ∧ ∀ layer, accepted_layer demo_project d = Some layer →
                 layer ∈ shown demo_project excluded.
Proof.
  apply (layer_selector_offers_the_shown_layers demo_project demo_config
           demo_dialog [LayerActivated 3; CancelClicked]).
  exact demo_init.
Defined.

(** Return on the freshly opened demo dialog. *)
Lemma return_key_accepts_without_a_layer_witness :
  let d := run demo_project demo_dialog [LayerActivated 1; LayerActivated 0] in
  ok_button_enabled d = false
  ∧ step demo_project d OkClicked = d
  ∧ let d' := step demo_project d (KeyPressed Key_Return) in
    dialog_result d' = Some Accepted
    ∧ accepted_layer demo_project d' = None
    ∧ accepted_field d' = None
    ∧ accepted_features d' = None.
Proof.
  apply (return_key_accepts_without_a_layer demo_project demo_config
           demo_dialog [LayerActivated 1; LayerActivated 0]).
  - exact demo_init.
  - vm_compute. reflexivity.
  - vm_compute. reflexivity.
Defined.

(** The bulk buttons on the Integer field of Roads. *)
Lemma bulk_buttons_check_all_or_none_witness :
  let d := run demo_project demo_dialog
             [LayerActivated 1; FieldActivated "lanes"] in
  ∃ texts,
    generate_feature_model demo_project d = Ok texts
    ∧ accepted_features (step demo_project d YesToAllClicked)
      = match texts with [] => None | _ => Some texts end
    ∧ accepted_features (step demo_project d NoToAllClicked) = None.
Proof.
  apply (bulk_buttons_check_all_or_none demo_project demo_config
           demo_dialog [LayerActivated 1; FieldActivated "lanes"]).
  - exact demo_init.
  - vm_compute. reflexivity.
  - vm_compute. reflexivity.
Defined.

(** Picking in the demo dialog with Roads selected. *)
Lemma picked_entries_are_accepted_witness :
  let d := run demo_project demo_dialog [LayerActivated 1] in
  (∀ i layer,
     layer_wdgt_layers demo_project d !! i = Some layer →
     accepted_layer demo_project (step demo_project d (LayerActivated (S i)))
     = Some layer)
  ∧ (∀ f,
       f ∈ field_wdgt_fields d →
       accepted_field (step demo_project d (FieldActivated (field_name f)))
       = Some f).
Proof.
  apply (picked_entries_are_accepted demo_project demo_config demo_dialog
           [LayerActivated 1]).
  - exact demo_init.
  - vm_compute. reflexivity.
Defined.

(** The Integer field of Wells: two depths and a NULL. *)
Lemma null_value_defeats_enumeration_witness :
  let d := run survey_project survey_dialog
             [LayerActivated 1; FieldActivated "depth"] in
  (∃ e, generate_feature_model survey_project d = Raise e)
  ∧ let d' := (on_selected_field survey_project d).2 in
    feature_wdgt d' = [] ∧ selection_button_enabled d' = false.
Proof.
  apply (null_value_defeats_enumeration survey_project
           (run survey_project survey_dialog
              [LayerActivated 1; FieldActivated "depth"])
           Wells (retagged (mkQgsField "depth" 2 "Integer" 10 0))).
  - vm_compute. reflexivity.
  - vm_compute. reflexivity.
  - vm_compute. right. left.
  - right. vm_compute. lia.
Defined.

(** The Date field of Roads: two dates. *)
Lemma comparable_values_are_enumerated_witness :
  let d := run demo_project demo_dialog
             [LayerActivated 1; FieldActivated "built"] in
  ∃ texts,
    generate_feature_model demo_project d = Ok texts
    ∧ length texts
      = length (uniqueValues Roads
                  (indexFromName (layer_fields Roads) "built")).
Proof.
  apply (comparable_values_are_enumerated demo_project
           (run demo_project demo_dialog
              [LayerActivated 1; FieldActivated "built"])
           Roads (retagged (mkQgsField "built" 14 "Date" 10 0))).
  - vm_compute. reflexivity.
  - reflexivity.
  - vm_compute. reflexivity.
  - vm_compute. reflexivity.
Defined.
